(** * Viking Bio 20 serial simulator and setup-PIN derivation

    A shallow embedding of [examples/viking_bio_simulator.py] and
    [tools/derive_pin.py], with the properties their specification states.

    Python integers are unbounded, so they are [Z]; [>>] and [&] on them
    are [Z.shiftr] and [Z.land].  The global [random] module becomes an
    explicit random source threaded through [update_state].  Exceptions
    become a [result] type.  Console output ([print]) is left out. *)

From Stdlib Require Import ZArith NArith QArith List String Ascii Bool Lia.
From Stdlib.Strings Require Import Byte.
Import ListNotations.
Open Scope Z_scope.

(** ** Exceptions *)

Inductive exn : Type :=
| ValueError (msg : string)
| UnicodeEncodeError.

Inductive result (A : Type) : Type :=
| Ok (a : A)
| Raise (e : exn).
Arguments Ok {A} a.
Arguments Raise {A} e.

Definition is_ok {A : Type} (r : result A) : bool :=
  match r with Ok _ => true | Raise _ => false end.

(** ** The [random] module *)

Module Rand.

(** The random source: an unbounded tape of raw draws and a cursor.
    Every call of [random] or [randint] consumes one cell. *)
Record Random : Type := mkRandom { tape : nat -> N; cursor : nat }.

(** Computations that consume randomness. *)
Definition M (A : Type) : Type := Random -> A * Random.

Definition ret {A : Type} (a : A) : M A := fun g => (a, g).

Definition bind {A B : Type} (m : M A) (k : A -> M B) : M B :=
  fun g => let (a, g') := m g in k a g'.

Definition next_raw : M N :=
  fun g => (tape g (cursor g), mkRandom (tape g) (S (cursor g))).

(** [random.random()]: a double in [0.0, 1.0), always of the form
    k / 2^53 with 0 <= k < 2^53.  It is kept as that exact rational. *)
Definition random : M Q :=
  bind next_raw (fun r => ret (Z.of_N (r mod 2 ^ 53) # 2 ^ 53)).

(** [random.randint(a, b)]: an integer N with a <= N <= b. *)
Definition randint (a b : Z) : M Z :=
  bind next_raw (fun r => ret (a + Z.of_N r mod (b - a + 1))).

(** The float literals [0.1] and [0.05] are not 1/10 and 1/20 but the
    nearest doubles, 0x1.999999999999ap-4 and 0x1.999999999999ap-5. *)
Definition float_0_1 : Q := 3602879701896397 # 2 ^ 55.
Definition float_0_05 : Q := 3602879701896397 # 2 ^ 56.

(** [x < y] on doubles that are both finite is [<] on their values. *)
Definition float_lt (x y : Q) : bool := negb (Qle_bool y x).

End Rand.

Import Rand.

Declare Scope rand_scope.
Delimit Scope rand_scope with rand.
Notation "x <- m ;; k" := (bind m (fun x => k))
  (at level 61, m at next level, right associativity) : rand_scope.

(** ** Python built-ins the programs use

    A [str] is a [string]; its characters are code points below 256. *)

Open Scope string_scope.
Open Scope Z_scope.

Definition newline : string := String "010" "".

(** Value of a byte as an integer. *)
Definition byte_val (b : byte) : Z := Z.of_N (Byte.to_N b).

(** [bytes([...])]: every element must be in range(0, 256). *)
Definition byte_of_int (z : Z) : result byte :=
  if (0 <=? z) && (z <? 256) then
    match Byte.of_N (Z.to_N z) with
    | Some b => Ok b
    | None => Raise (ValueError "bytes must be in range(0, 256)")
    end
  else Raise (ValueError "bytes must be in range(0, 256)").

Fixpoint bytes_of_ints (l : list Z) : result (list byte) :=
  match l with
  | [] => Ok []
  | z :: l' =>
      match byte_of_int z with
      | Raise e => Raise e
      | Ok b =>
          match bytes_of_ints l' with
          | Raise e => Raise e
          | Ok bs => Ok (b :: bs)
          end
      end
  end.

(** Decimal digits of a non-negative integer, least significant first
    onto [acc]; [fuel] bounds the number of digits. *)
Definition digit_char (d : Z) : ascii := ascii_of_N (48 + Z.to_N d).

Fixpoint dec_digits (fuel : nat) (n : Z) (acc : string) : string :=
  match fuel with
  | O => acc
  | S fuel' =>
      let acc' := String (digit_char (n mod 10)) acc in
      if n <? 10 then acc' else dec_digits fuel' (n / 10) acc'
  end.

(** A number has no more decimal digits than binary ones. *)
Definition str_nat (n : Z) : string :=
  dec_digits (S (Z.to_nat (Z.log2 n))) n "".

(** [f"{z}"] and [str(z)] for an [int]. *)
Definition str_int (z : Z) : string :=
  if z <? 0 then String "-" (str_nat (- z)) else str_nat z.

Fixpoint zeros (k : nat) : string :=
  match k with
  | O => ""
  | S k' => String "0" (zeros k')
  end.

(** [f"{z:08d}"]: sign-aware zero padding to a minimum width of 8. *)
Definition format_08d (z : Z) : string :=
  if z <? 0 then
    let ds := str_nat (- z) in String "-" (zeros (7 - String.length ds) ++ ds)
  else
    let ds := str_nat z in zeros (8 - String.length ds) ++ ds.

(** [s.encode('ascii')]. *)
Fixpoint encode_ascii (s : string) : result (list byte) :=
  match s with
  | "" => Ok []
  | String c s' =>
      if (N_of_ascii c <? 128)%N then
        match encode_ascii s' with
        | Raise e => Raise e
        | Ok bs => Ok (byte_of_ascii c :: bs)
        end
      else Raise UnicodeEncodeError
  end.

(** ** [class VikingBioSimulator]: simulation state *)

Record VikingBioSimulator : Type := mkSim {
  flame_on : bool;
  fan_speed : Z;
  temperature : Z;
  target_temp : Z
}.

(** [__init__]: the simulation state a new simulator starts with. *)
Definition init : VikingBioSimulator :=
  {| flame_on := false; fan_speed := 0; temperature := 20; target_temp := 75 |}.

Definition set_fan_speed (s : VikingBioSimulator) (v : Z) : VikingBioSimulator :=
  {| flame_on := flame_on s; fan_speed := v;
     temperature := temperature s; target_temp := target_temp s |}.

Definition set_temperature (s : VikingBioSimulator) (v : Z) : VikingBioSimulator :=
  {| flame_on := flame_on s; fan_speed := fan_speed s;
     temperature := v; target_temp := target_temp s |}.

(** Body of the ignition branch (lines 72-73). *)
Definition ignite (s : VikingBioSimulator) : VikingBioSimulator :=
  {| flame_on := true; fan_speed := 30;
     temperature := temperature s; target_temp := target_temp s |}.

(** Body of the shutdown branch (lines 78-80). *)
Definition extinguish (s : VikingBioSimulator) : VikingBioSimulator :=
  {| flame_on := false; fan_speed := 0;
     temperature := Z.max 20 (temperature s - 10); target_temp := target_temp s |}.

Section UpdateState.
Local Open Scope rand_scope.

(** The first [if]/[elif] of [update_state] (lines 71-81).  [and]
    short-circuits: with the flame off only the ignition draw is made
    (the [elif] stops at [self.flame_on]), with the flame on only the
    shutdown draw. *)
Definition flame_transition (s : VikingBioSimulator) : M VikingBioSimulator :=
  if negb (flame_on s) then
    d <- random ;;
    if float_lt d float_0_1 then ret (ignite s) else ret s
  else
    d <- random ;;
    if float_lt d float_0_05 then ret (extinguish s) else ret s.

(** The second [if]/[else] of [update_state] (lines 84-98). *)
Definition fan_and_heat (s : VikingBioSimulator) : M VikingBioSimulator :=
  if flame_on s then
    s1 <- (if fan_speed s <? 80 then
             r <- randint 5 15 ;;
             ret (set_fan_speed s (Z.min 80 (fan_speed s + r)))
           else
             r <- randint (-5) 5 ;;
             ret (set_fan_speed s (Z.max 70 (Z.min 90 (fan_speed s + r))))) ;;
    if temperature s1 <? target_temp s1 then
      r <- randint 1 3 ;;
      ret (set_temperature s1 (Z.min (target_temp s1) (temperature s1 + r)))
    else ret s1
  else
    if 20 <? temperature s then
      r <- randint 1 2 ;;
      ret (set_temperature s (Z.max 20 (temperature s - r)))
    else ret s.

Definition update_state (s : VikingBioSimulator) : M VikingBioSimulator :=
  s1 <- flame_transition s ;;
  fan_and_heat s1.

End UpdateState.

(** The simulation state after [n] iterations of the loop of [run]. *)
Fixpoint ticks (n : nat) (s : VikingBioSimulator) : M VikingBioSimulator :=
  match n with
  | O => ret s
  | S n' => bind (update_state s) (ticks n')
  end.

(** States the loop can be in: [init], and whatever one more
    [update_state] makes of such a state, for any random source. *)
Inductive reachable : VikingBioSimulator -> Prop :=
| reachable_init : reachable init
| reachable_tick (s : VikingBioSimulator) (g : Random) :
    reachable s -> reachable (fst (update_state s g)).

(** ** The two wire encoders

    Each returns what it hands to [self.ser.write]. *)

(** The list literal of [send_binary_packet] (lines 42-56). *)
Definition binary_packet_ints (s : VikingBioSimulator) : list Z :=
  let flags := if flame_on s then 1 else 0 in
  let temp_high := Z.land (Z.shiftr (temperature s) 8) 255 in
  let temp_low := Z.land (temperature s) 255 in
  [170; flags; fan_speed s; temp_high; temp_low; 85].

Definition send_binary_packet (s : VikingBioSimulator) : result (list byte) :=
  bytes_of_ints (binary_packet_ints s).

Definition send_text_packet (s : VikingBioSimulator) : result (list byte) :=
  let flame_val := if flame_on s then 1 else 0 in
  let message :=
    "F:" ++ str_int flame_val ++ ",S:" ++ str_int (fan_speed s)
         ++ ",T:" ++ str_int (temperature s) ++ newline in
  encode_ascii message.

(** ** [hashlib.sha256]

    The hash of FIPS 180-4 on 32-bit words kept as integers in
    [0, 2^32).  Its constants are, as the standard defines them, the
    first 32 bits of the fractional parts of the square and cube roots
    of the first primes. *)

Module SHA256.

Definition wrap (x : Z) : Z := x mod 2 ^ 32.

Definition sum32 (l : list Z) : Z := wrap (fold_left Z.add l 0).

Definition rotr (n x : Z) : Z :=
  Z.lor (Z.shiftr x n) (wrap (Z.shiftl x (32 - n))).

Definition xor3 (a b c : Z) : Z := Z.lxor (Z.lxor a b) c.

Definition ch (x y z : Z) : Z :=
  Z.lxor (Z.land x y) (Z.land (Z.lxor x (Z.ones 32)) z).
Definition maj (x y z : Z) : Z :=
  xor3 (Z.land x y) (Z.land x z) (Z.land y z).
Definition big_sigma0 (x : Z) : Z := xor3 (rotr 2 x) (rotr 13 x) (rotr 22 x).
Definition big_sigma1 (x : Z) : Z := xor3 (rotr 6 x) (rotr 11 x) (rotr 25 x).
Definition small_sigma0 (x : Z) : Z := xor3 (rotr 7 x) (rotr 18 x) (Z.shiftr x 3).
Definition small_sigma1 (x : Z) : Z := xor3 (rotr 17 x) (rotr 19 x) (Z.shiftr x 10).

Definition is_prime (n : Z) : bool :=
  forallb (fun d => negb (n mod Z.of_nat d =? 0)) (seq 2 (Z.to_nat n - 2)).

(** The first 64 primes: those up to 311. *)
Definition primes : list Z :=
  Eval vm_compute in filter is_prime (map Z.of_nat (seq 2 310)).

(** Integer cube root of a number below 2^(3 * bits), bit by bit. *)
Fixpoint icbrt (bits : nat) (n root : Z) : Z :=
  match bits with
  | O => root
  | S b =>
      let c := root + 2 ^ Z.of_nat b in
      icbrt b n (if c * c * c <=? n then c else root)
  end.

Definition initial_hash : list Z :=
  Eval vm_compute in
    map (fun p => wrap (Z.sqrt (p * 2 ^ 64))) (firstn 8 primes).

Definition round_constants : list Z :=
  Eval vm_compute in map (fun p => wrap (icbrt 36 (p * 2 ^ 96) 0)) primes.

(** Big-endian bytes of an integer, [width] of them. *)
Fixpoint be_bytes (width : nat) (x : Z) : list Z :=
  match width with
  | O => []
  | S w => Z.land (Z.shiftr x (8 * Z.of_nat w)) 255 :: be_bytes w x
  end.

Definition be_value (bs : list Z) : Z :=
  fold_left (fun acc b => acc * 256 + b) bs 0.

(** Padding: a 1 bit, zeros up to 56 modulo 64 bytes, then the bit
    length on 8 bytes. *)
Definition pad (msg : list Z) : list Z :=
  let len := Z.of_nat (List.length msg) in
  (msg ++ 128 :: repeat 0 (Z.to_nat ((55 - len) mod 64))
       ++ be_bytes 8 (8 * len))%list.

Fixpoint chunks (fuel size : nat) (l : list Z) : list (list Z) :=
  match fuel, l with
  | S fuel', _ :: _ => firstn size l :: chunks fuel' size (skipn size l)
  | _, _ => []
  end.

(** The message schedule, newest word first. *)
Fixpoint extend (n : nat) (w : list Z) : list Z :=
  match n with
  | O => w
  | S n' =>
      extend n'
        (sum32 [small_sigma1 (nth 1 w 0); nth 6 w 0;
                small_sigma0 (nth 14 w 0); nth 15 w 0] :: w)
  end.

Definition schedule (block : list Z) : list Z :=
  rev (extend 48 (rev (map be_value (chunks 16 4 block)))).

Record regs : Type := mkRegs { ra : Z; rb : Z; rc : Z; rd : Z;
                               re : Z; rf : Z; rg : Z; rh : Z }.

Definition round (r : regs) (kw : Z * Z) : regs :=
  let t1 := sum32 [rh r; big_sigma1 (re r); ch (re r) (rf r) (rg r);
                   fst kw; snd kw] in
  let t2 := sum32 [big_sigma0 (ra r); maj (ra r) (rb r) (rc r)] in
  mkRegs (sum32 [t1; t2]) (ra r) (rb r) (rc r)
         (sum32 [rd r; t1]) (re r) (rf r) (rg r).

Definition compress (h : regs) (block : list Z) : regs :=
  let r := fold_left round (combine round_constants (schedule block)) h in
  mkRegs (sum32 [ra h; ra r]) (sum32 [rb h; rb r])
         (sum32 [rc h; rc r]) (sum32 [rd h; rd r])
         (sum32 [re h; re r]) (sum32 [rf h; rf r])
         (sum32 [rg h; rg r]) (sum32 [rh h; rh r]).

Definition initial_regs : regs :=
  mkRegs (nth 0 initial_hash 0) (nth 1 initial_hash 0)
         (nth 2 initial_hash 0) (nth 3 initial_hash 0)
         (nth 4 initial_hash 0) (nth 5 initial_hash 0)
         (nth 6 initial_hash 0) (nth 7 initial_hash 0).

Definition digest_ints (r : regs) : list Z :=
  (be_bytes 4 (ra r) ++ be_bytes 4 (rb r) ++ be_bytes 4 (rc r)
     ++ be_bytes 4 (rd r) ++ be_bytes 4 (re r) ++ be_bytes 4 (rf r)
     ++ be_bytes 4 (rg r) ++ be_bytes 4 (rh r))%list.

Definition byte_of_Z (z : Z) : byte :=
  match Byte.of_N (Z.to_N z) with Some b => b | None => x00 end.

(** [hashlib.sha256(data).digest()] *)
Definition sha256 (data : list byte) : list byte :=
  let padded := pad (map byte_val data) in
  let blocks := chunks (List.length padded) 64 padded in
  map byte_of_Z (digest_ints (fold_left compress blocks initial_regs)).

End SHA256.

(** [s.replace(c, "")] for a one-character [c]. *)
Fixpoint str_remove (c : ascii) (s : string) : string :=
  match s with
  | "" => ""
  | String x s' =>
      if (x =? c)%char then str_remove c s' else String x (str_remove c s')
  end.

(** [int.from_bytes(bs, byteorder='big')] *)
Definition int_from_bytes_big (bs : list byte) : Z :=
  fold_left (fun acc b => acc * 256 + byte_val b) bs 0.

(** Value of a hexadecimal digit, if the character is one. *)
Definition hex_value (c : ascii) : option Z :=
  let n := Z.of_N (N_of_ascii c) in
  if (48 <=? n) && (n <=? 57) then Some (n - 48)
  else if (65 <=? n) && (n <=? 70) then Some (n - 55)
  else if (97 <=? n) && (n <=? 102) then Some (n - 87)
  else None.

(** ASCII whitespace: space, tab, line feed, vertical tab, form feed,
    carriage return. *)
Definition is_space (c : ascii) : bool :=
  let n := N_of_ascii c in ((n =? 32) || ((9 <=? n) && (n <=? 13)))%N.

(** [bytes.fromhex(s)] (Python 3.7 and later): pairs of hexadecimal
    digits, with ASCII whitespace allowed between pairs and at either
    end, but not inside a pair.  The error message is kept without the
    position it ends with. *)
Fixpoint bytes_fromhex (s : string) : result (list byte) :=
  match s with
  | "" => Ok []
  | String c s' =>
      if is_space c then bytes_fromhex s'
      else
        match hex_value c, s' with
        | Some hi, String d s'' =>
            match hex_value d, bytes_fromhex s'' with
            | Some lo, Ok bs => Ok (SHA256.byte_of_Z (16 * hi + lo) :: bs)
            | Some _, Raise e => Raise e
            | None, _ =>
                Raise (ValueError "non-hexadecimal number found in fromhex() arg")
            end
        | _, _ =>
            Raise (ValueError "non-hexadecimal number found in fromhex() arg")
        end
  end.

(** *** The part of [re] that [parse_mac] uses

    A pattern is a sequence of items: [^], [$], and a character class
    repeated an exact number of times.  Without flags, [^] holds at the
    start of the string, and [$] holds at the end of the string and
    also just before a line feed that ends the string. *)
Inductive re_item : Type :=
| Caret
| Dollar
| Class (ranges : list (ascii * ascii)) (count : nat).

Definition in_ranges (ranges : list (ascii * ascii)) (c : ascii) : bool :=
  existsb (fun r => ((N_of_ascii (fst r) <=? N_of_ascii c)
                     && (N_of_ascii c <=? N_of_ascii (snd r)))%N) ranges.

(** Take [count] characters of the class off the front, if they are there. *)
Fixpoint take_class (ranges : list (ascii * ascii)) (count : nat) (s : string)
  : option string :=
  match count with
  | O => Some s
  | S n =>
      match s with
      | String c s' => if in_ranges ranges c then take_class ranges n s' else None
      | "" => None
      end
  end.

Fixpoint re_match_items (p : list re_item) (at_start : bool) (s : string) : bool :=
  match p with
  | [] => true
  | Caret :: p' => at_start && re_match_items p' at_start s
  | Dollar :: p' =>
      ((s =? "")%string || (s =? newline)%string) && re_match_items p' at_start s
  | Class ranges count :: p' =>
      match take_class ranges count s with
      | Some rest => re_match_items p' (at_start && (count =? 0)%nat) rest
      | None => false
      end
  end.

(** [re.match(p, s)]: a match that begins at the start of [s]. *)
Definition re_match (p : list re_item) (s : string) : bool :=
  re_match_items p true s.

(** ** [tools/derive_pin.py] *)

Definition PRODUCT_SALT : list byte := list_byte_of_string "VIKINGBIO-2026".

(** The pattern [r'^[0-9A-Fa-f]{12}$']. *)
Definition hex_class : list (ascii * ascii) :=
  [("0"%char, "9"%char); ("A"%char, "F"%char); ("a"%char, "f"%char)].

Definition mac_pattern : list re_item := [Caret; Class hex_class 12; Dollar].

Definition parse_mac (mac_str : string) : result (list byte) :=
  let mac_str := str_remove " " (str_remove "-" (str_remove ":" mac_str)) in
  if negb (re_match mac_pattern mac_str) then
    Raise (ValueError ("Invalid MAC address format: " ++ mac_str))
  else
    match bytes_fromhex mac_str with
    | Raise e => Raise e
    | Ok mac_bytes =>
        if negb (List.length mac_bytes =? 6)%nat then
          Raise (ValueError ("MAC address must be 6 bytes, got "
                               ++ str_int (Z.of_nat (List.length mac_bytes))))
        else Ok mac_bytes
    end.

Definition derive_pin_from_mac (mac_bytes : list byte) : string :=
  let input_data := (mac_bytes ++ PRODUCT_SALT)%list in
  let hash_bytes := SHA256.sha256 input_data in
  let hash_value := int_from_bytes_big (firstn 4 hash_bytes) in
  let pin := hash_value mod 100000000 in
  format_08d pin.

(** ** Reading frames and numerals back

    These are not in the programs; the properties below are stated
    with them. *)

(** An unsigned 16-bit big-endian quantity from its two bytes. *)
Definition u16_be (hi lo : byte) : Z := byte_val hi * 256 + byte_val lo.

(** An unsigned 32-bit big-endian quantity from its four bytes. *)
Definition u32_be (b0 b1 b2 b3 : byte) : Z :=
  byte_val b0 * 2 ^ 24 + byte_val b1 * 2 ^ 16 + byte_val b2 * 2 ^ 8 + byte_val b3.

Definition is_hex_digit (c : ascii) : bool :=
  match hex_value c with Some _ => true | None => false end.

Fixpoint all_hex (s : string) : bool :=
  match s with
  | "" => true
  | String c s' => is_hex_digit c && all_hex s'
  end.

(** Exactly 12 hexadecimal characters. *)
Definition twelve_hex (s : string) : bool :=
  (String.length s =? 12)%nat && all_hex s.

(** The bytes that a string of hexadecimal digit pairs spells. *)
Fixpoint hex_pairs (s : string) : list Z :=
  match s with
  | String c (String d s') =>
      match hex_value c, hex_value d with
      | Some hi, Some lo => 16 * hi + lo :: hex_pairs s'
      | _, _ => []
      end
  | _ => []
  end.

(** The separators [parse_mac] deletes. *)
Definition strip_separators (s : string) : string :=
  str_remove " " (str_remove "-" (str_remove ":" s)).

Definition is_digit (c : ascii) : bool :=
  ((48 <=? N_of_ascii c) && (N_of_ascii c <=? 57))%N.

Fixpoint all_digits (s : string) : bool :=
  match s with
  | "" => true
  | String c s' => is_digit c && all_digits s'
  end.

(** Every character is in the 7-bit ASCII range. *)
Fixpoint all_ascii (s : string) : bool :=
  match s with
  | "" => true
  | String c s' => (N_of_ascii c <? 128)%N && all_ascii s'
  end.

Definition digit_val (c : ascii) : Z := Z.of_N (N_of_ascii c) - 48.

Fixpoint decimal_value_from (acc : Z) (s : string) : Z :=
  match s with
  | "" => acc
  | String c s' => decimal_value_from (10 * acc + digit_val c) s'
  end.

(** The number a string of decimal digits denotes. *)
Definition decimal_value (s : string) : Z := decimal_value_from 0 s.

(** [ds] is the base-10 numeral of [n] without padding: digits only,
    denoting [n], and no leading zero except for the numeral 0. *)
Definition plain_numeral (n : Z) (ds : string) : Prop :=
  all_digits ds = true /\ decimal_value ds = n /\
  (ds = "0" \/ exists c rest, ds = String c rest /\ c <> "0"%char).

(** [s] is the integer [z] printed in base 10 with no padding. *)
Definition printed_int (z : Z) (s : string) : Prop :=
  if z <? 0 then exists ds, s = String "-" ds /\ plain_numeral (- z) ds
  else plain_numeral z s.

(** ** The serial port and [run]

    Of the port only what the simulator does with it is kept: the bytes
    written so far and whether it is open. *)

Record Serial : Type := mkSerial { written : list byte; is_open : bool }.

Definition ser_write (p : Serial) (data : list byte) : Serial :=
  mkSerial (written p ++ data)%list (is_open p).

Definition ser_close (p : Serial) : Serial := mkSerial (written p) false.

(** A simulator at work: its state, its random source, its port. *)
Record Running : Type :=
  mkRunning { burner : VikingBioSimulator; source : Random; ser : Serial }.

(** The [if protocol == 'binary'] of [run] (lines 116-119): every other
    protocol string is sent as text. *)
Definition send_packet (protocol : string) (s : VikingBioSimulator)
  : result (list byte) :=
  if (protocol =? "binary")%string then send_binary_packet s
  else send_text_packet s.

(** The [while True] of [run], for [n] iterations, after which a
    [KeyboardInterrupt] arrives during [time.sleep].  An exception of an
    encoder is raised before [self.ser.write] is reached and leaves the
    loop. *)
Fixpoint run_loop (protocol : string) (n : nat) (r : Running)
  : Running * result unit :=
  match n with
  | O => (r, Ok tt)
  | S n' =>
      let (s', g') := update_state (burner r) (source r) in
      match send_packet protocol s' with
      | Raise e => (mkRunning s' g' (ser r), Raise e)
      | Ok packet =>
          run_loop protocol n' (mkRunning s' g' (ser_write (ser r) packet))
      end
  end.

(** [run]: the loop, with [KeyboardInterrupt] caught and the port
    closed in the [finally] on both ways out. *)
Definition run (protocol : string) (n : nat) (r : Running)
  : Running * result unit :=
  let (r', outcome) := run_loop protocol n r in
  (mkRunning (burner r') (source r') (ser_close (ser r')), outcome).

(** ** [main] of [tools/derive_pin.py] *)

Definition hex_digit_upper (v : Z) : ascii :=
  ascii_of_N (Z.to_N (if v <? 10 then 48 + v else 55 + v)).

(** [f"{b:02X}"] for an element [b] of a [bytes] object. *)
Definition format_02X (b : byte) : string :=
  String (hex_digit_upper (byte_val b / 16))
         (String (hex_digit_upper (byte_val b mod 16)) "").

(** [":".join(f"{b:02X}" for b in mac_bytes)] *)
Definition mac_display (mac_bytes : list byte) : string :=
  String.concat ":" (map format_02X mac_bytes).




(** ** Further read-back helpers *)

(** What a receiver reads off a 6-byte frame: flame, fan speed and
    temperature, if the two sentinels are in place. *)
Definition decode_binary_frame (frame : list byte) : option (bool * Z * Z) :=
  match frame with
  | [b0; flags; fan; hi; lo; b5] =>
      if Byte.eqb b0 xaa && Byte.eqb b5 x55
      then Some (Z.testbit (byte_val flags) 0, byte_val fan, u16_be hi lo)
      else None
  | _ => None
  end.

(** Whether a character occurs in a string. *)
Fixpoint occurs (c : ascii) (s : string) : bool :=
  match s with
  | "" => false
  | String x s' => (x =? c)%char || occurs c s'
  end.

(** Lower-case hexadecimal letters turned into upper case. *)
Definition hex_upper (c : ascii) : ascii :=
  let n := N_of_ascii c in
  if ((97 <=? n) && (n <=? 102))%N then ascii_of_N (n - 32) else c.

Fixpoint string_map (f : ascii -> ascii) (s : string) : string :=
  match s with
  | "" => ""
  | String c s' => String (f c) (string_map f s')
  end.

(** Three sample random sources: every raw draw zero; every raw draw
    2^52 (so [random] gives 0.5); and one that ignites at once, heats
    for ten ticks, shuts down on the eleventh and then stays off. *)
Definition zero_source : Random := mkRandom (fun _ => 0%N) 0.
Definition idle_source : Random := mkRandom (fun _ => (2 ^ 52)%N) 0.
Definition burn_source : Random :=
  mkRandom (fun i => if (i =? 0)%nat then 0%N
                     else if (i <? 30)%nat then
                            (if (i mod 3 =? 0)%nat then 2 ^ 52 else 2)%N
                     else if (i =? 30)%nat then 0%N else (2 ^ 52)%N) 0.

(** What every state of the loop satisfies (shown below): the fan is
    within 0..90 and stands still while the flame is off, and the
    temperature stays between ambient and target. *)
Definition burner_inv (s : VikingBioSimulator) : Prop :=
  0 <= fan_speed s <= 90 /\ 20 <= temperature s <= 75 /\
  target_temp s = 75 /\ (flame_on s = false -> fan_speed s = 0).

(** The state after [n] ticks of a simulator started on source [g]. *)
Definition state_at (g : Random) (n : nat) : VikingBioSimulator :=
  fst (ticks n init g).

(** * Properties of the state update *)

(** ** The random source *)

Lemma randint_range (a b : Z) (g : Random) :
  a <= b -> a <= fst (randint a b g) <= b.
Proof.
  intros Hab. unfold randint, bind, next_raw, ret. simpl.
  pose proof (Z.mod_pos_bound (Z.of_N (tape g (cursor g))) (b - a + 1)).
  lia.
Qed.

Lemma random_unit_interval (g : Random) :
  (0 <= fst (random g))%Q /\ (fst (random g) < 1)%Q.
Proof.
  unfold random, bind, next_raw, ret. cbn [fst].
  set (r := tape g (cursor g)).
  assert (r mod 2 ^ 53 < 9007199254740992)%N as Hr
    by (apply N.mod_upper_bound; discriminate).
  set (k := (r mod 2 ^ 53)%N) in *. clearbody k.
  unfold Qle, Qlt. simpl Qnum. simpl Qden.
  change (Z.pos (2 ^ 53)) with 9007199254740992. lia.
Qed.

(** On the doubles that [random] returns, being below the float literal
    [0.1] is the same as being below one tenth. *)
Lemma float_lt_0_1 (g : Random) :
  float_lt (fst (random g)) float_0_1 = true <-> (fst (random g) < 1 # 10)%Q.
Proof.
  unfold float_lt, float_0_1, random, bind, next_raw, ret. cbn [fst].
  set (k := Z.of_N (tape g (cursor g) mod 2 ^ 53)).
  rewrite negb_true_iff, <- not_true_iff_false, Qle_bool_iff.
  unfold Qle, Qlt. simpl Qnum. simpl Qden.
  change (Z.pos (2 ^ 53)) with 9007199254740992.
  change (Z.pos (2 ^ 55)) with 36028797018963968.
  lia.
Qed.

(** Likewise for [0.05] and one twentieth. *)
Lemma float_lt_0_05 (g : Random) :
  float_lt (fst (random g)) float_0_05 = true <-> (fst (random g) < 1 # 20)%Q.
Proof.
  unfold float_lt, float_0_05, random, bind, next_raw, ret. cbn [fst].
  set (k := Z.of_N (tape g (cursor g) mod 2 ^ 53)).
  rewrite negb_true_iff, <- not_true_iff_false, Qle_bool_iff.
  unfold Qle, Qlt. simpl Qnum. simpl Qden.
  change (Z.pos (2 ^ 53)) with 9007199254740992.
  change (Z.pos (2 ^ 56)) with 72057594037927936.
  lia.
Qed.

(** ** One tick, as a function of its draws *)

Lemma update_state_run (s : VikingBioSimulator) (g : Random) :
  update_state s g =
  fan_and_heat (fst (flame_transition s g)) (snd (flame_transition s g)).
Proof.
  unfold update_state, bind. destruct (flame_transition s g); reflexivity.
Qed.

Lemma flame_transition_fst (s : VikingBioSimulator) (g : Random) :
  fst (flame_transition s g) =
  if flame_on s
  then (if float_lt (fst (random g)) float_0_05 then extinguish s else s)
  else (if float_lt (fst (random g)) float_0_1 then ignite s else s).
Proof.
  unfold flame_transition.
  destruct (flame_on s); cbn [negb]; unfold bind;
    destruct (random g) as [d g']; cbn [fst];
    match goal with |- context [float_lt d ?c] => destruct (float_lt d c) end;
    reflexivity.
Qed.

(** The second half of a tick in terms of four numbers in the ranges of
    its [randint] calls; only those on the path taken are drawn. *)
Lemma fan_and_heat_fst (s : VikingBioSimulator) (g : Random) :
  exists r1 r2 r3 r4 : Z,
    5 <= r1 <= 15 /\ -5 <= r2 <= 5 /\ 1 <= r3 <= 3 /\ 1 <= r4 <= 2 /\
    fst (fan_and_heat s g) =
    if flame_on s then
      let s1 := if fan_speed s <? 80
                then set_fan_speed s (Z.min 80 (fan_speed s + r1))
                else set_fan_speed s (Z.max 70 (Z.min 90 (fan_speed s + r2))) in
      if temperature s1 <? target_temp s1
      then set_temperature s1 (Z.min (target_temp s1) (temperature s1 + r3))
      else s1
    else
      if 20 <? temperature s
      then set_temperature s (Z.max 20 (temperature s - r4))
      else s.
Proof.
  exists (fst (randint 5 15 g)), (fst (randint (-5) 5 g)),
         (fst (randint 1 3 (snd (next_raw g)))), (fst (randint 1 2 g)).
  repeat split; try (apply randint_range; lia).
  unfold fan_and_heat, bind.
  destruct (flame_on s).
  - destruct (fan_speed s <? 80); cbn -[Z.min Z.max Z.ltb Z.modulo];
      match goal with |- context [?a <? ?b] => destruct (a <? b) end;
      reflexivity.
  - destruct (20 <? temperature s); reflexivity.
Qed.

(** ** The invariant of the loop *)

Lemma burner_inv_init : burner_inv init.
Proof. unfold burner_inv, init; cbn. repeat split; lia. Qed.

Lemma flame_transition_inv (s : VikingBioSimulator) (g : Random) :
  burner_inv s -> burner_inv (fst (flame_transition s g)).
Proof.
  intros (Hf & Ht & Hg & Hoff). rewrite flame_transition_fst.
  destruct (flame_on s) eqn:Hflame;
    match goal with |- context [if ?c then _ else _] => destruct c end;
    unfold burner_inv, extinguish, ignite; cbn; rewrite ?Hflame;
    repeat split; try lia; try discriminate; auto.
Qed.

Lemma fan_and_heat_inv (s : VikingBioSimulator) (g : Random) :
  burner_inv s -> burner_inv (fst (fan_and_heat s g)).
Proof.
  intros (Hf & Ht & Hg & Hoff).
  destruct (fan_and_heat_fst s g) as (r1 & r2 & r3 & r4 & H1 & H2 & H3 & H4 & ->).
  unfold burner_inv.
  destruct (flame_on s) eqn:Hflame.
  - cbv zeta.
    destruct (Z.ltb_spec (fan_speed s) 80); cbn;
      rewrite Hg; destruct (Z.ltb_spec (temperature s) 75); cbn;
      rewrite ?Hflame; repeat split; try lia; try discriminate.
  - destruct (Z.ltb_spec 20 (temperature s)); cbn;
      rewrite ?Hflame; repeat split; try lia; auto.
Qed.

Lemma update_state_inv (s : VikingBioSimulator) (g : Random) :
  burner_inv s -> burner_inv (fst (update_state s g)).
Proof.
  intros H. rewrite update_state_run.
  apply fan_and_heat_inv, flame_transition_inv, H.
Qed.

Lemma reachable_inv (s : VikingBioSimulator) : reachable s -> burner_inv s.
Proof.
  induction 1 as [|s g _ IH]; [apply burner_inv_init | apply update_state_inv, IH].
Qed.

Lemma ticks_succ (n : nat) (s : VikingBioSimulator) (g : Random) :
  ticks (S n) s g = update_state (fst (ticks n s g)) (snd (ticks n s g)).
Proof.
  revert s g. induction n as [|n IH]; intros s g.
  - cbn. unfold bind, ret. destruct (update_state s g); reflexivity.
  - change (ticks (S (S n)) s g) with (bind (update_state s) (ticks (S n)) g).
    change (ticks (S n) s g) with (bind (update_state s) (ticks n) g).
    unfold bind. destruct (update_state s g) as [s1 g1]. apply IH.
Qed.

Lemma state_at_succ (g : Random) (n : nat) :
  state_at g (S n) = fst (update_state (state_at g n) (snd (ticks n init g))).
Proof. unfold state_at. rewrite ticks_succ. reflexivity. Qed.

Lemma state_at_reachable (g : Random) (n : nat) : reachable (state_at g n).
Proof.
  induction n as [|n IH].
  - apply reachable_init.
  - rewrite state_at_succ. apply reachable_tick, IH.
Qed.

(** ** Single ticks *)

(** A tick that starts and ends with the flame off did not shut down
    and did not ignite: it only cooled, and not below ambient. *)
Lemma off_tick_cools (s : VikingBioSimulator) (g : Random) :
  20 <= temperature s ->
  flame_on s = false ->
  flame_on (fst (update_state s g)) = false ->
  20 <= temperature (fst (update_state s g)) <= temperature s.
Proof.
  intros Ht Hoff. rewrite update_state_run, flame_transition_fst, Hoff.
  set (g1 := snd (flame_transition s g)).
  destruct (float_lt (fst (random g)) float_0_1).
  - destruct (fan_and_heat_fst (ignite s) g1) as (r1 & r2 & r3 & r4 & _ & _ & _ & _ & ->).
    cbn [flame_on ignite]. cbv zeta.
    repeat match goal with |- context [if ?c then _ else _] => destruct c end;
      cbn; discriminate.
  - destruct (fan_and_heat_fst s g1) as (r1 & r2 & r3 & r4 & _ & _ & _ & H4 & ->).
    rewrite Hoff. intros _.
    destruct (Z.ltb_spec 20 (temperature s)); cbn; lia.
Qed.

(** C1 (as amended). From the initial state, a tick whose ignition draw
    is below 0.10 runs the ignition branch, which leaves flame on, fan
    speed 30 and temperature 20; the fan ramp and the heating of that
    same tick then add their draws, so the tick ends with the flame on,
    fan speed 30 + r1 for a draw r1 in 5..15 and temperature 20 + r2 for
    a draw r2 in 1..3. *)
Theorem ignition_tick_from_init (g : Random) :
  (fst (random g) < 1 # 10)%Q ->
  fst (flame_transition init g) =
    {| flame_on := true; fan_speed := 30; temperature := 20; target_temp := 75 |} /\
  exists r1 r2 : Z,
    5 <= r1 <= 15 /\ 1 <= r2 <= 3 /\
    fst (update_state init g) =
      {| flame_on := true; fan_speed := 30 + r1;
         temperature := 20 + r2; target_temp := 75 |}.
Proof.
  intros Hd. apply float_lt_0_1 in Hd.
  assert (fst (flame_transition init g) = ignite init) as Hign.
  { rewrite flame_transition_fst. cbn [flame_on init]. rewrite Hd. reflexivity. }
  split; [exact Hign|].
  rewrite update_state_run, Hign.
  destruct (fan_and_heat_fst (ignite init) (snd (flame_transition init g)))
    as (r1 & r2 & r3 & r4 & H1 & _ & H3 & _ & ->).
  exists r1, r3. repeat split; try lia.
  cbn -[Z.min Z.add].
  replace (Z.min 80 (30 + r1)) with (30 + r1) by lia.
  replace (Z.min 75 (20 + r3)) with (20 + r3) by lia.
  reflexivity.
Qed.

Lemma ignition_tick_from_init_witness :
  (fst (random zero_source) < 1 # 10)%Q /\
  fst (flame_transition init zero_source) =
    {| flame_on := true; fan_speed := 30; temperature := 20; target_temp := 75 |} /\
  exists r1 r2 : Z,
    5 <= r1 <= 15 /\ 1 <= r2 <= 3 /\
    fst (update_state init zero_source) =
      {| flame_on := true; fan_speed := 30 + r1;
         temperature := 20 + r2; target_temp := 75 |}.
Proof.
  split; [reflexivity | apply (ignition_tick_from_init zero_source); reflexivity].
Defined.

(** C1 (as stated) fails: on the all-zero source the ignition draw is
    0.0, and the tick ends with fan speed 35 and temperature 21, not
    with 30 and 20. *)
Lemma ignition_tick_not_exact :
  (fst (random zero_source) < 1 # 10)%Q /\
  fst (update_state init zero_source) =
    {| flame_on := true; fan_speed := 35; temperature := 21; target_temp := 75 |} /\
  fst (update_state init zero_source) <>
    {| flame_on := true; fan_speed := 30; temperature := 20; target_temp := 75 |}.
Proof.
  split; [reflexivity|]. split; [reflexivity|].
  intros H. vm_compute in H. discriminate H.
Qed.

(** C2. Every state reachable from the initial one by ticks, whatever
    the draws, has its fan speed within 0..100 and its temperature at
    20 or above. *)
Theorem reachable_fan_temperature_bounds (s : VikingBioSimulator) :
  reachable s -> 0 <= fan_speed s <= 100 /\ 20 <= temperature s.
Proof.
  intros H. destruct (reachable_inv s H) as (Hf & Ht & _). lia.
Qed.

Lemma reachable_fan_temperature_bounds_witness :
  reachable (state_at burn_source 5) /\
  0 <= fan_speed (state_at burn_source 5) <= 100 /\
  20 <= temperature (state_at burn_source 5).
Proof.
  split; [apply state_at_reachable|].
  apply (reachable_fan_temperature_bounds (state_at burn_source 5)).
  apply state_at_reachable.
Defined.

(** C6. With the flame on, a tick whose shutdown draw is below 0.05
    runs the shutdown branch, which sets flame off, fan speed 0 and
    temperature max(20, temperature - 10); at the end of that tick the
    flame is still off and the fan speed still 0, and the cooling step
    of the same tick has been applied to the lowered temperature. *)
Theorem extinguish_tick (s : VikingBioSimulator) (g : Random) :
  flame_on s = true ->
  (fst (random g) < 1 # 20)%Q ->
  fst (flame_transition s g) =
    {| flame_on := false; fan_speed := 0;
       temperature := Z.max 20 (temperature s - 10);
       target_temp := target_temp s |} /\
  flame_on (fst (update_state s g)) = false /\
  fan_speed (fst (update_state s g)) = 0 /\
  exists r : Z,
    1 <= r <= 2 /\
    temperature (fst (update_state s g)) =
      if 20 <? Z.max 20 (temperature s - 10)
      then Z.max 20 (Z.max 20 (temperature s - 10) - r)
      else Z.max 20 (temperature s - 10).
Proof.
  intros Hon Hd. apply float_lt_0_05 in Hd.
  assert (fst (flame_transition s g) = extinguish s) as Hext.
  { rewrite flame_transition_fst, Hon, Hd. reflexivity. }
  split; [exact Hext|].
  rewrite update_state_run, Hext.
  destruct (fan_and_heat_fst (extinguish s) (snd (flame_transition s g)))
    as (r1 & r2 & r3 & r4 & _ & _ & _ & H4 & ->).
  cbn [flame_on extinguish temperature].
  destruct (20 <? Z.max 20 (temperature s - 10)); cbn;
    (split; [reflexivity | split; [reflexivity | exists r4; split; [lia | reflexivity]]]).
Qed.

Lemma extinguish_tick_witness :
  let s := state_at burn_source 10 in
  let g := snd (ticks 10 init burn_source) in
  flame_on s = true /\ (fst (random g) < 1 # 20)%Q /\
  fst (flame_transition s g) =
    {| flame_on := false; fan_speed := 0;
       temperature := Z.max 20 (temperature s - 10);
       target_temp := target_temp s |} /\
  flame_on (fst (update_state s g)) = false /\
  fan_speed (fst (update_state s g)) = 0 /\
  exists r : Z,
    1 <= r <= 2 /\
    temperature (fst (update_state s g)) =
      if 20 <? Z.max 20 (temperature s - 10)
      then Z.max 20 (Z.max 20 (temperature s - 10) - r)
      else Z.max 20 (temperature s - 10).
Proof.
  intros s g.
  split; [reflexivity|]. split; [reflexivity|].
  apply (extinguish_tick s g); reflexivity.
Defined.

(** C8. Over any stretch of consecutive ticks of a run throughout which
    the flame is off, the temperature does not rise from one tick to
    the next, hence not over the whole stretch, and is never below 20. *)
Theorem flame_off_segment_cooling (g : Random) (i k : nat) :
  (forall j : nat, (i <= j <= i + k)%nat -> flame_on (state_at g j) = false) ->
  temperature (state_at g (i + k)) <= temperature (state_at g i) /\
  20 <= temperature (state_at g (i + k)) /\
  (forall j : nat, (i <= j < i + k)%nat ->
     20 <= temperature (state_at g (S j)) <= temperature (state_at g j)).
Proof.
  intros Hoff.
  assert (forall j : nat, (i <= j < i + k)%nat ->
            20 <= temperature (state_at g (S j)) <= temperature (state_at g j))
    as Hstep.
  { intros j Hj. rewrite state_at_succ. apply off_tick_cools.
    - destruct (reachable_inv _ (state_at_reachable g j)) as (_ & Ht & _). lia.
    - apply Hoff. lia.
    - rewrite <- state_at_succ. apply Hoff. lia. }
  assert (20 <= temperature (state_at g i)) as Hi.
  { destruct (reachable_inv _ (state_at_reachable g i)) as (_ & Ht & _). lia. }
  repeat split; try (apply Hstep; assumption).
  - clear Hoff. induction k as [|k IH].
    + rewrite Nat.add_0_r. lia.
    + rewrite Nat.add_succ_r.
      pose proof (Hstep (i + k)%nat ltac:(lia)).
      assert (temperature (state_at g (i + k)) <= temperature (state_at g i)).
      { apply IH. intros j Hj. apply Hstep. lia. }
      lia.
  - destruct (reachable_inv _ (state_at_reachable g (i + k))) as (_ & Ht & _). lia.
Qed.

Lemma flame_off_segment_cooling_witness :
  (forall j : nat, (11 <= j <= 11 + 4)%nat ->
     flame_on (state_at burn_source j) = false) /\
  temperature (state_at burn_source (11 + 4)) <= temperature (state_at burn_source 11) /\
  20 <= temperature (state_at burn_source (11 + 4)) /\
  (forall j : nat, (11 <= j < 11 + 4)%nat ->
     20 <= temperature (state_at burn_source (S j)) <=
     temperature (state_at burn_source j)).
Proof.
  assert (forall j : nat, (11 <= j <= 11 + 4)%nat ->
            flame_on (state_at burn_source j) = false) as Hoff.
  { intros j Hj.
    assert (j = 11 \/ j = 12 \/ j = 13 \/ j = 14 \/ j = 15)%nat
      as [-> | [-> | [-> | [-> | ->]]]] by lia; reflexivity. }
  split; [exact Hoff | apply (flame_off_segment_cooling burn_source 11 4 Hoff)].
Defined.

(** C10. In every state reachable from the initial one by ticks, a
    flame that is off means a fan speed of 0. *)
Theorem reachable_flame_off_fan_zero (s : VikingBioSimulator) :
  reachable s -> flame_on s = false -> fan_speed s = 0.
Proof.
  intros H. destruct (reachable_inv s H) as (_ & _ & _ & Hoff). exact Hoff.
Qed.

Lemma reachable_flame_off_fan_zero_witness :
  reachable (state_at burn_source 11) /\
  flame_on (state_at burn_source 11) = false /\
  fan_speed (state_at burn_source 11) = 0.
Proof.
  split; [apply state_at_reachable|]. split; [reflexivity|].
  apply (reachable_flame_off_fan_zero (state_at burn_source 11));
    [apply state_at_reachable | reflexivity].
Defined.

(** * Properties of the encoders *)

(** ** Bytes *)

Lemma byte_val_range (b : byte) : 0 <= byte_val b <= 255.
Proof. unfold byte_val. pose proof (Byte.to_N_bounded b). lia. Qed.

Lemma byte_val_inj (a b : byte) : byte_val a = byte_val b -> a = b.
Proof.
  unfold byte_val. intros H. apply N2Z.inj in H.
  pose proof (Byte.of_to_N a) as Ha. rewrite H, Byte.of_to_N in Ha.
  congruence.
Qed.

Lemma byte_of_int_in_range (z : Z) :
  0 <= z <= 255 -> exists b : byte, byte_of_int z = Ok b /\ byte_val b = z.
Proof.
  intros Hz. unfold byte_of_int.
  destruct (Z.leb_spec 0 z); [|lia]. destruct (Z.ltb_spec z 256); [|lia].
  cbn [andb]. destruct (Byte.of_N (Z.to_N z)) as [b|] eqn:E.
  - exists b. split; [reflexivity|].
    apply Byte.to_of_N in E. unfold byte_val. rewrite E. lia.
  - apply Byte.of_N_None_iff in E. lia.
Qed.

Lemma bytes_of_ints_in_range (l : list Z) :
  Forall (fun z => 0 <= z <= 255) l ->
  exists bs : list byte, bytes_of_ints l = Ok bs /\ map byte_val bs = l.
Proof.
  induction 1 as [|z l Hz _ (bs & Hbs & Hmap)].
  - exists []. split; reflexivity.
  - destruct (byte_of_int_in_range z Hz) as (b & Hb & Hv).
    exists (b :: bs). cbn. rewrite Hb, Hbs, Hv, Hmap. split; reflexivity.
Qed.

(** The shift-and-mask split of a 16-bit quantity is its quotient and
    remainder by 256. *)
Lemma temperature_split (t : Z) :
  0 <= t <= 65535 ->
  Z.land (Z.shiftr t 8) 255 = t / 256 /\ Z.land t 255 = t mod 256 /\
  0 <= t / 256 <= 255 /\ 0 <= t mod 256 <= 255.
Proof.
  intros Ht.
  assert (0 <= t / 256 < 256) as Hq.
  { split; [apply Z.div_pos; lia | apply Z.div_lt_upper_bound; lia]. }
  pose proof (Z.mod_pos_bound t 256 ltac:(lia)) as Hr.
  replace (Z.land (Z.shiftr t 8) 255) with (t / 256).
  2:{ change 255 with (Z.ones 8).
      rewrite Z.land_ones, Z.shiftr_div_pow2 by lia.
      change (2 ^ 8) with 256. rewrite Z.mod_small by lia. reflexivity. }
  replace (Z.land t 255) with (t mod 256).
  2:{ change 255 with (Z.ones 8). rewrite Z.land_ones by lia. reflexivity. }
  repeat split; lia.
Qed.

Lemma binary_packet_ints_in_range (s : VikingBioSimulator) :
  0 <= fan_speed s <= 255 -> 0 <= temperature s <= 65535 ->
  Forall (fun z => 0 <= z <= 255) (binary_packet_ints s).
Proof.
  intros Hf Ht. destruct (temperature_split _ Ht) as (Hhi & Hlo & Hq & Hr).
  unfold binary_packet_ints. rewrite Hhi, Hlo.
  repeat constructor; try lia; destruct (flame_on s); lia.
Qed.

(** The frame of a state whose fields fit: six bytes whose values are
    the six integers of the list literal. *)
Lemma binary_frame_bytes (s : VikingBioSimulator) :
  0 <= fan_speed s <= 255 -> 0 <= temperature s <= 65535 ->
  exists flags fan hi lo : byte,
    send_binary_packet s = Ok [xaa; flags; fan; hi; lo; x55] /\
    byte_val flags = (if flame_on s then 1 else 0) /\
    byte_val fan = fan_speed s /\
    byte_val hi = temperature s / 256 /\
    byte_val lo = temperature s mod 256.
Proof.
  intros Hf Ht.
  destruct (bytes_of_ints_in_range _ (binary_packet_ints_in_range s Hf Ht))
    as (bs & Hbs & Hmap).
  destruct (temperature_split _ Ht) as (Hhi & Hlo & _).
  unfold send_binary_packet. rewrite Hbs.
  unfold binary_packet_ints in Hmap. rewrite Hhi, Hlo in Hmap.
  destruct bs as [|b0 [|b1 [|b2 [|b3 [|b4 [|b5 [|b6 bs]]]]]]]; try discriminate Hmap.
  injection Hmap as H0 H1 H2 H3 H4 H5.
  exists b1, b2, b3, b4.
  replace b0 with xaa by (apply byte_val_inj; rewrite H0; reflexivity).
  replace b5 with x55 by (apply byte_val_inj; rewrite H5; reflexivity).
  repeat split; assumption.
Qed.

(** C3. For a state with fan speed within 0..100 and temperature within
    0..65535 the binary encoder yields exactly six bytes: 0xAA, a flags
    byte whose bit 0 is the flame and whose other bits are 0, the fan
    speed, the temperature as an unsigned 16-bit big-endian pair (which
    decodes back to the temperature), and 0x55. *)
Theorem binary_frame_layout (s : VikingBioSimulator) :
  0 <= fan_speed s <= 100 ->
  0 <= temperature s <= 65535 ->
  exists flags fan hi lo : byte,
    send_binary_packet s = Ok [xaa; flags; fan; hi; lo; x55] /\
    Z.testbit (byte_val flags) 0 = flame_on s /\
    (forall i : Z, 0 < i -> Z.testbit (byte_val flags) i = false) /\
    byte_val fan = fan_speed s /\
    byte_val hi = temperature s / 256 /\
    byte_val lo = temperature s mod 256 /\
    u16_be hi lo = temperature s.
Proof.
  intros Hf Ht.
  destruct (binary_frame_bytes s ltac:(lia) Ht)
    as (flags & fan & hi & lo & Hpkt & Hflags & Hfan & Hhi & Hlo).
  exists flags, fan, hi, lo.
  split; [exact Hpkt|]. rewrite Hflags.
  split; [destruct (flame_on s); reflexivity|].
  split.
  { intros i Hi. destruct i as [|p|p]; try lia.
    destruct (flame_on s); reflexivity. }
  repeat split; try assumption.
  unfold u16_be. rewrite Hhi, Hlo.
  pose proof (Z.div_mod (temperature s) 256 ltac:(lia)). lia.
Qed.

Lemma binary_frame_layout_witness :
  let s := {| flame_on := true; fan_speed := 100;
              temperature := 65535; target_temp := 75 |} in
  0 <= fan_speed s <= 100 /\ 0 <= temperature s <= 65535 /\
  exists flags fan hi lo : byte,
    send_binary_packet s = Ok [xaa; flags; fan; hi; lo; x55] /\
    Z.testbit (byte_val flags) 0 = flame_on s /\
    (forall i : Z, 0 < i -> Z.testbit (byte_val flags) i = false) /\
    byte_val fan = fan_speed s /\
    byte_val hi = temperature s / 256 /\
    byte_val lo = temperature s mod 256 /\
    u16_be hi lo = temperature s.
Proof.
  intros s.
  split; [cbn; lia|]. split; [cbn; lia|].
  apply (binary_frame_layout s); cbn; lia.
Defined.

(** C7. In every state reachable from the initial one the temperature
    is at most the target, which is 75, so at most 65535; the six
    integers handed to [bytes] are then all within 0..255, the frame is
    built without error, and its two temperature bytes decode back to
    the temperature exactly. *)
Theorem reachable_frame_exact (s : VikingBioSimulator) :
  reachable s ->
  temperature s <= target_temp s /\ target_temp s = 75 /\
  temperature s <= 65535 /\
  Forall (fun z => 0 <= z <= 255) (binary_packet_ints s) /\
  exists flags fan hi lo : byte,
    send_binary_packet s = Ok [xaa; flags; fan; hi; lo; x55] /\
    byte_val fan = fan_speed s /\
    u16_be hi lo = temperature s.
Proof.
  intros H. destruct (reachable_inv s H) as (Hf & Ht & Hg & _).
  split; [lia|]. split; [exact Hg|]. split; [lia|].
  split; [apply binary_packet_ints_in_range; lia|].
  destruct (binary_frame_bytes s ltac:(lia) ltac:(lia))
    as (flags & fan & hi & lo & Hpkt & _ & Hfan & Hhi & Hlo).
  exists flags, fan, hi, lo. repeat split; try assumption.
  unfold u16_be. rewrite Hhi, Hlo.
  pose proof (Z.div_mod (temperature s) 256 ltac:(lia)). lia.
Qed.

Lemma reachable_frame_exact_witness :
  let s := state_at burn_source 10 in
  reachable s /\
  temperature s <= target_temp s /\ target_temp s = 75 /\
  temperature s <= 65535 /\
  Forall (fun z => 0 <= z <= 255) (binary_packet_ints s) /\
  exists flags fan hi lo : byte,
    send_binary_packet s = Ok [xaa; flags; fan; hi; lo; x55] /\
    byte_val fan = fan_speed s /\
    u16_be hi lo = temperature s.
Proof.
  intros s. split; [apply state_at_reachable|].
  apply (reachable_frame_exact s), state_at_reachable.
Defined.

(** ** Strings and numerals *)

Lemma append_empty_r (s : string) : s ++ "" = s.
Proof. induction s as [|c s IH]; cbn; [|rewrite IH]; reflexivity. Qed.

Lemma append_assoc (a b c : string) : (a ++ b) ++ c = a ++ (b ++ c).
Proof. induction a as [|x a IH]; cbn; [|rewrite IH]; reflexivity. Qed.

Lemma length_append (a b : string) :
  String.length (a ++ b) = (String.length a + String.length b)%nat.
Proof. induction a as [|x a IH]; cbn; [|rewrite IH]; reflexivity. Qed.

Lemma all_digits_append (a b : string) :
  all_digits (a ++ b) = all_digits a && all_digits b.
Proof.
  induction a as [|x a IH]; cbn; [|rewrite IH, andb_assoc]; reflexivity.
Qed.

Lemma decimal_value_from_append (a b : string) (acc : Z) :
  decimal_value_from acc (a ++ b) =
  decimal_value_from (decimal_value_from acc a) b.
Proof.
  revert acc. induction a as [|x a IH]; intros acc; cbn; [|rewrite IH]; reflexivity.
Qed.

Lemma length_zeros (k : nat) : String.length (zeros k) = k.
Proof. induction k as [|k IH]; cbn; [|rewrite IH]; reflexivity. Qed.

Lemma all_digits_zeros (k : nat) : all_digits (zeros k) = true.
Proof. induction k as [|k IH]; cbn; [|rewrite IH]; reflexivity. Qed.

Lemma decimal_value_from_zeros (k : nat) : decimal_value_from 0 (zeros k) = 0.
Proof. induction k as [|k IH]; cbn; [|rewrite IH]; reflexivity. Qed.

Lemma digit_char_code (d : Z) :
  0 <= d <= 9 -> N_of_ascii (digit_char d) = (48 + Z.to_N d)%N.
Proof. intros Hd. unfold digit_char. apply N_ascii_embedding. lia. Qed.

Lemma digit_char_is_digit (d : Z) : 0 <= d <= 9 -> is_digit (digit_char d) = true.
Proof.
  intros Hd. unfold is_digit. rewrite (digit_char_code d Hd).
  apply andb_true_intro. split; apply N.leb_le; lia.
Qed.

Lemma digit_char_val (d : Z) : 0 <= d <= 9 -> digit_val (digit_char d) = d.
Proof. intros Hd. unfold digit_val. rewrite (digit_char_code d Hd). lia. Qed.

Lemma digit_char_zero (d : Z) : 0 <= d <= 9 -> digit_char d = "0"%char -> d = 0.
Proof.
  intros Hd H. apply (f_equal N_of_ascii) in H.
  rewrite (digit_char_code d Hd) in H.
  change (N_of_ascii "0") with 48%N in H. lia.
Qed.

Lemma dec_digits_succ (fuel : nat) (n : Z) (acc : string) :
  dec_digits (S fuel) n acc =
  if n <? 10 then String (digit_char (n mod 10)) acc
  else dec_digits fuel (n / 10) (String (digit_char (n mod 10)) acc).
Proof. reflexivity. Qed.

(** With enough fuel, [dec_digits] puts the plain numeral of [n] in
    front of [acc], in as many digits as [n] needs. *)
Lemma dec_digits_numeral (fuel : nat) :
  forall (n : Z) (acc : string),
    0 <= n < 2 ^ Z.of_nat (S fuel) ->
    exists ds : string,
      dec_digits (S fuel) n acc = ds ++ acc /\
      plain_numeral n ds /\
      (forall k : nat, n < 10 ^ Z.of_nat (S k) -> (String.length ds <= S k)%nat).
Proof.
  induction fuel as [|fuel IH]; intros n acc Hn;
    rewrite dec_digits_succ; destruct (Z.ltb_spec n 10) as [Hlt|Hge].
  1,3: exists (String (digit_char (n mod 10)) "");
       rewrite Z.mod_small by lia;
       (split; [reflexivity|]); split;
       [ unfold plain_numeral, decimal_value; cbn;
         rewrite digit_char_is_digit, digit_char_val by lia;
         repeat split; try lia;
         destruct (Z.eq_dec n 0) as [->|Hnz];
         [ left; reflexivity
         | right; eexists; eexists; split;
           [reflexivity | intros Hc; apply digit_char_zero in Hc; lia] ]
       | intros k _; cbn; lia ].
  - change (2 ^ Z.of_nat 1) with 2 in Hn. lia.
  - assert (0 <= n / 10 < 2 ^ Z.of_nat (S fuel)) as Hq.
    { split; [apply Z.div_pos; lia|].
      apply Z.div_lt_upper_bound; [lia|].
      rewrite (Nat2Z.inj_succ (S fuel)), Z.pow_succ_r in Hn by lia. lia. }
    pose proof (Z.mod_pos_bound n 10 ltac:(lia)) as Hr.
    destruct (IH (n / 10) (String (digit_char (n mod 10)) acc) Hq)
      as (ds & Hds & (Hall & Hval & Hlead) & Hlen).
    exists (ds ++ String (digit_char (n mod 10)) "").
    split; [rewrite Hds, append_assoc; reflexivity|]. split.
    + unfold plain_numeral, decimal_value in *.
      rewrite all_digits_append, decimal_value_from_append, Hall, Hval.
      cbn [all_digits decimal_value_from].
      rewrite digit_char_is_digit, digit_char_val by lia.
      split; [reflexivity|]. split.
      * pose proof (Z.div_mod n 10 ltac:(lia)). lia.
      * right. destruct Hlead as [-> | (c & rest & -> & Hc)].
        -- cbn in Hval.
           assert (1 <= n / 10) by (apply Z.div_le_lower_bound; lia). lia.
        -- exists c, (rest ++ String (digit_char (n mod 10)) "").
           split; [reflexivity | exact Hc].
    + intros k Hk. rewrite length_append. cbn.
      destruct k as [|k]; [change (10 ^ Z.of_nat 1) with 10 in Hk; lia|].
      assert (String.length ds <= S k)%nat; [|lia].
      apply Hlen. apply Z.div_lt_upper_bound; [lia|].
      rewrite (Nat2Z.inj_succ (S k)), Z.pow_succ_r in Hk by lia. lia.
Qed.

Lemma str_nat_numeral (n : Z) :
  0 <= n ->
  plain_numeral n (str_nat n) /\
  (forall k : nat, n < 10 ^ Z.of_nat (S k) -> (String.length (str_nat n) <= S k)%nat).
Proof.
  intros Hn. unfold str_nat.
  destruct (dec_digits_numeral (Z.to_nat (Z.log2 n)) n "") as (ds & -> & Hds).
  - split; [lia|].
    rewrite Nat2Z.inj_succ, Z2Nat.id by apply Z.log2_nonneg.
    destruct (Z.eq_dec n 0) as [->|Hnz]; [reflexivity|].
    apply Z.log2_spec. lia.
  - rewrite append_empty_r. exact Hds.
Qed.

Lemma str_int_printed (z : Z) : printed_int z (str_int z).
Proof.
  unfold printed_int, str_int. destruct (Z.ltb_spec z 0).
  - exists (str_nat (- z)). split; [reflexivity|].
    apply str_nat_numeral. lia.
  - apply str_nat_numeral. lia.
Qed.

Lemma encode_ascii_ok (s : string) :
  all_ascii s = true -> encode_ascii s = Ok (list_byte_of_string s).
Proof.
  induction s as [|c s IH]; cbn [all_ascii encode_ascii]; [reflexivity|].
  intros H. apply andb_prop in H as [Hc Hs].
  rewrite Hc, (IH Hs). reflexivity.
Qed.

Lemma all_ascii_append (a b : string) :
  all_ascii (a ++ b) = all_ascii a && all_ascii b.
Proof.
  induction a as [|x a IH]; cbn; [|rewrite IH, andb_assoc]; reflexivity.
Qed.

Lemma all_digits_ascii (s : string) : all_digits s = true -> all_ascii s = true.
Proof.
  induction s as [|c s IH]; cbn [all_digits all_ascii]; [reflexivity|].
  intros H. apply andb_prop in H as [Hc Hs]. rewrite (IH Hs), andb_true_r.
  unfold is_digit in Hc. apply andb_prop in Hc as [_ Hc].
  apply N.leb_le in Hc. apply N.ltb_lt. lia.
Qed.

Lemma str_int_ascii (z : Z) : all_ascii (str_int z) = true.
Proof.
  pose proof (str_int_printed z) as H. unfold printed_int in H.
  destruct (z <? 0).
  - destruct H as (ds & -> & Hall & _). cbn [all_ascii].
    rewrite (all_digits_ascii ds Hall). reflexivity.
  - destruct H as (Hall & _). apply all_digits_ascii, Hall.
Qed.

(** C9. The text encoder writes exactly the ASCII line
    F:<f>,S:<s>,T:<t> followed by a newline, where <f> is 1 when the
    flame is on and 0 otherwise, and <s> and <t> are the fan speed and
    the temperature printed in base 10 with no padding. *)
Theorem text_line_format (s : VikingBioSimulator) :
  let f := if flame_on s then "1" else "0" in
  send_text_packet s =
    Ok (list_byte_of_string
          ("F:" ++ f ++ ",S:" ++ str_int (fan_speed s)
                ++ ",T:" ++ str_int (temperature s) ++ newline)) /\
  (f = "1" <-> flame_on s = true) /\
  printed_int (fan_speed s) (str_int (fan_speed s)) /\
  printed_int (temperature s) (str_int (temperature s)).
Proof.
  intros f. split; [|split; [|split; apply str_int_printed]].
  - unfold send_text_packet.
    replace (str_int (if flame_on s then 1 else 0)) with f
      by (unfold f; destruct (flame_on s); reflexivity).
    apply encode_ascii_ok.
    rewrite !all_ascii_append, !str_int_ascii.
    unfold f; destruct (flame_on s); reflexivity.
  - unfold f; destruct (flame_on s); split; intros H;
      (reflexivity || discriminate H).
Qed.

(** * Properties of the PIN derivation *)

(** A digest is 32 bytes. *)
Lemma sha256_shape (data : list byte) :
  exists (b0 b1 b2 b3 : byte) (rest : list byte),
    SHA256.sha256 data = b0 :: b1 :: b2 :: b3 :: rest /\
    List.length rest = 28%nat.
Proof.
  unfold SHA256.sha256.
  set (r := fold_left SHA256.compress _ _). clearbody r.
  destruct r as [a b c d e f g h].
  unfold SHA256.digest_ints.
  cbn [SHA256.be_bytes SHA256.ra SHA256.rb SHA256.rc SHA256.rd
       SHA256.re SHA256.rf SHA256.rg SHA256.rh app map].
  do 5 eexists. split; reflexivity.
Qed.

Lemma int_from_bytes_big_four (b0 b1 b2 b3 : byte) :
  int_from_bytes_big [b0; b1; b2; b3] = u32_be b0 b1 b2 b3.
Proof. unfold int_from_bytes_big, u32_be. cbn [fold_left]. lia. Qed.

(** [f"{n:08d}"] of a number below 10^8 is its 8-digit numeral. *)
Lemma format_08d_eight_digits (n : Z) :
  0 <= n < 100000000 ->
  String.length (format_08d n) = 8%nat /\
  all_digits (format_08d n) = true /\
  decimal_value (format_08d n) = n.
Proof.
  intros Hn. unfold format_08d.
  destruct (Z.ltb_spec n 0); [lia|]. cbv zeta.
  destruct (str_nat_numeral n ltac:(lia)) as ((Hall & Hval & _) & Hlen).
  specialize (Hlen 7%nat).
  change (10 ^ Z.of_nat 8) with 100000000 in Hlen.
  specialize (Hlen ltac:(lia)).
  rewrite length_append, length_zeros, all_digits_append, all_digits_zeros, Hall.
  unfold decimal_value in *.
  rewrite decimal_value_from_append, decimal_value_from_zeros, Hval.
  repeat split. lia.
Qed.

(** C4. For a 6-byte address, [derive_pin_from_mac] hashes the 20 bytes
    made of the address and the 14 ASCII bytes VIKINGBIO-2026 with
    SHA-256, reads the first four digest bytes as a big-endian unsigned
    32-bit integer, reduces it modulo 100000000, and returns that
    number as a string of exactly 8 decimal digits.  Being a function
    of the address only, the result is the same at every call. *)
Theorem derive_pin_from_mac_digits (mac : list byte) :
  List.length mac = 6%nat ->
  PRODUCT_SALT = list_byte_of_string "VIKINGBIO-2026" /\
  List.length PRODUCT_SALT = 14%nat /\
  List.length (mac ++ PRODUCT_SALT)%list = 20%nat /\
  exists (b0 b1 b2 b3 : byte) (rest : list byte),
    SHA256.sha256 (mac ++ PRODUCT_SALT)%list = b0 :: b1 :: b2 :: b3 :: rest /\
    List.length rest = 28%nat /\
    String.length (derive_pin_from_mac mac) = 8%nat /\
    all_digits (derive_pin_from_mac mac) = true /\
    decimal_value (derive_pin_from_mac mac) = u32_be b0 b1 b2 b3 mod 100000000.
Proof.
  intros Hlen.
  split; [reflexivity|]. split; [reflexivity|].
  split; [rewrite length_app, Hlen; reflexivity|].
  destruct (sha256_shape (mac ++ PRODUCT_SALT)%list)
    as (b0 & b1 & b2 & b3 & rest & Hsha & Hrest).
  exists b0, b1, b2, b3, rest.
  split; [exact Hsha|]. split; [exact Hrest|].
  unfold derive_pin_from_mac. rewrite Hsha.
  cbn [firstn]. rewrite int_from_bytes_big_four.
  apply format_08d_eight_digits, Z.mod_pos_bound. lia.
Qed.

Lemma derive_pin_from_mac_digits_witness :
  let mac := [xaa; xbb; xcc; xdd; xee; xff] in
  List.length mac = 6%nat /\
  PRODUCT_SALT = list_byte_of_string "VIKINGBIO-2026" /\
  List.length PRODUCT_SALT = 14%nat /\
  List.length (mac ++ PRODUCT_SALT)%list = 20%nat /\
  exists (b0 b1 b2 b3 : byte) (rest : list byte),
    SHA256.sha256 (mac ++ PRODUCT_SALT)%list = b0 :: b1 :: b2 :: b3 :: rest /\
    List.length rest = 28%nat /\
    String.length (derive_pin_from_mac mac) = 8%nat /\
    all_digits (derive_pin_from_mac mac) = true /\
    decimal_value (derive_pin_from_mac mac) = u32_be b0 b1 b2 b3 mod 100000000.
Proof.
  intros mac. split; [reflexivity|].
  apply (derive_pin_from_mac_digits mac). reflexivity.
Defined.

(** The address AA:BB:CC:DD:EE:FF: its digest begins 0a e0 57 5e, and
    0x0ae0575e mod 10^8 is 82474590. *)
Example derive_pin_reference_address :
  firstn 4 (SHA256.sha256 ([xaa; xbb; xcc; xdd; xee; xff] ++ PRODUCT_SALT)%list)
    = [x0a; xe0; x57; x5e] /\
  derive_pin_from_mac [xaa; xbb; xcc; xdd; xee; xff] = "82474590".
Proof. split; vm_compute; reflexivity. Qed.

(** The round constants and initial hash value start and end as the
    standard lists them, and the empty message and "abc" hash to their
    published digests. *)
Example sha256_constants :
  nth 0 SHA256.round_constants 0 = 0x428a2f98 /\
  nth 63 SHA256.round_constants 0 = 0xc67178f2 /\
  nth 0 SHA256.initial_hash 0 = 0x6a09e667 /\
  nth 7 SHA256.initial_hash 0 = 0x5be0cd19.
Proof. repeat split. Qed.

Example sha256_abc :
  firstn 8 (SHA256.sha256 (list_byte_of_string "abc"))
    = [xba; x78; x16; xbf; x8f; x01; xcf; xea] /\
  firstn 8 (SHA256.sha256 [])
    = [xe3; xb0; xc4; x42; x98; xfc; x1c; x14].
Proof. split; vm_compute; reflexivity. Qed.

(** ** What [parse_mac] accepts *)

Lemma in_hex_class (c : ascii) : in_ranges hex_class c = is_hex_digit c.
Proof. destruct c as [[] [] [] [] [] [] [] []]; vm_compute; reflexivity. Qed.

Lemma hex_digit_not_space (c : ascii) :
  is_hex_digit c = true -> is_space c = false.
Proof.
  destruct c as [[] [] [] [] [] [] [] []]; vm_compute; intros H;
    (reflexivity || discriminate H).
Qed.

Lemma hex_value_range (c : ascii) (v : Z) : hex_value c = Some v -> 0 <= v <= 15.
Proof.
  unfold hex_value. set (n := Z.of_N (N_of_ascii c)). clearbody n.
  destruct (Z.leb_spec 48 n), (Z.leb_spec n 57),
           (Z.leb_spec 65 n), (Z.leb_spec n 70),
           (Z.leb_spec 97 n), (Z.leb_spec n 102);
    cbn [andb]; intros Hv; inversion Hv; lia.
Qed.

Lemma byte_val_of_Z (z : Z) : 0 <= z <= 255 -> byte_val (SHA256.byte_of_Z z) = z.
Proof.
  intros Hz. unfold SHA256.byte_of_Z, byte_val.
  destruct (Byte.of_N (Z.to_N z)) as [b|] eqn:E.
  - apply Byte.to_of_N in E. rewrite E. lia.
  - apply Byte.of_N_None_iff in E. lia.
Qed.

Lemma take_class_hex (n : nat) :
  forall s rest : string,
    take_class hex_class n s = Some rest <->
    exists pre : string,
      s = pre ++ rest /\ String.length pre = n /\ all_hex pre = true.
Proof.
  induction n as [|n IH]; intros s rest; cbn [take_class].
  - split.
    + intros [= ->]. exists "". repeat split.
    + intros (pre & -> & Hlen & _). destruct pre; [reflexivity | discriminate Hlen].
  - destruct s as [|c s].
    + split; [discriminate|].
      intros (pre & Heq & Hlen & _). destruct pre; discriminate.
    + rewrite in_hex_class. destruct (is_hex_digit c) eqn:Hc.
      * rewrite IH. split.
        -- intros (pre & -> & Hlen & Hall). exists (String c pre).
           cbn. rewrite Hc, Hlen, Hall. repeat split.
        -- intros (pre & Heq & Hlen & Hall).
           destruct pre as [|x pre]; [discriminate Hlen|].
           cbn in Heq, Hlen, Hall. injection Heq as -> ->.
           apply andb_prop in Hall as [_ Hall].
           exists pre. repeat split; [lia | exact Hall].
      * split; [discriminate|].
        intros (pre & Heq & Hlen & Hall).
        destruct pre as [|x pre]; [discriminate Hlen|].
        cbn in Heq, Hall. injection Heq as -> _.
        rewrite Hc in Hall. discriminate Hall.
Qed.

Lemma append_same_length (a b c d : string) :
  String.length a = String.length b -> a ++ c = b ++ d -> a = b /\ c = d.
Proof.
  revert b. induction a as [|x a IH]; intros [|y b] Hlen Heq;
    try discriminate Hlen.
  - split; [reflexivity | exact Heq].
  - cbn in Hlen, Heq. injection Hlen as Hlen. injection Heq as -> Heq.
    destruct (IH b Hlen Heq) as [-> ->]. split; reflexivity.
Qed.

(** The pattern matches 12 hexadecimal characters, and also 12 of them
    followed by one line feed. *)
Lemma re_match_mac_pattern (t : string) :
  re_match mac_pattern t = true <->
  twelve_hex t = true \/
  exists h : string, t = h ++ newline /\ twelve_hex h = true.
Proof.
  unfold re_match, mac_pattern. cbn [re_match_items andb Nat.eqb].
  destruct (take_class hex_class 12 t) as [rest|] eqn:E.
  - apply take_class_hex in E as (pre & -> & Hlen & Hall).
    assert (twelve_hex pre = true) as Hpre.
    { unfold twelve_hex. rewrite Hlen, Hall. reflexivity. }
    rewrite andb_true_r, orb_true_iff, !String.eqb_eq. split.
    + intros [-> | ->].
      * left. rewrite append_empty_r. exact Hpre.
      * right. exists pre. split; [reflexivity | exact Hpre].
    + intros [H | (h & Heq & H)];
        unfold twelve_hex in H; apply andb_prop in H as [H _];
        apply Nat.eqb_eq in H.
      * left. rewrite length_append, Hlen in H.
        destruct rest; [reflexivity | cbn in H; lia].
      * right.
        destruct (append_same_length pre h rest newline) as [_ Hr];
          [congruence | exact Heq | exact Hr].
  - split; [discriminate|].
    intros [H | (h & -> & H)]; unfold twelve_hex in H;
      apply andb_prop in H as [Hlen Hall]; apply Nat.eqb_eq in Hlen.
    + assert (take_class hex_class 12 t = Some "") as E'.
      { apply take_class_hex. exists t. rewrite append_empty_r. repeat split; assumption. }
      congruence.
    + assert (take_class hex_class 12 (h ++ newline) = Some newline) as E'.
      { apply take_class_hex. exists h. repeat split; assumption. }
      congruence.
Qed.

(** [bytes.fromhex] on an even number of hexadecimal digits followed by
    anything: the digits give their bytes, the rest is read on. *)
Lemma bytes_fromhex_pairs (n : nat) :
  forall pre : string,
    String.length pre = (2 * n)%nat -> all_hex pre = true ->
    exists bs : list byte,
      List.length bs = n /\ map byte_val bs = hex_pairs pre /\
      forall rest : string,
        bytes_fromhex (pre ++ rest) =
        match bytes_fromhex rest with
        | Ok bs' => Ok (bs ++ bs')%list
        | Raise e => Raise e
        end.
Proof.
  induction n as [|n IH]; intros pre Hlen Hall.
  - destruct pre; [|discriminate Hlen]. exists []. repeat split.
    intros rest. cbn [append app]. destruct (bytes_fromhex rest); reflexivity.
  - destruct pre as [|c [|d pre]]; [cbn in Hlen; lia | cbn in Hlen; lia |].
    cbn [all_hex] in Hall.
    apply andb_prop in Hall as [Hc Hall]. apply andb_prop in Hall as [Hd Hall].
    destruct (IH pre ltac:(cbn in Hlen; lia) Hall) as (bs & Hbs & Hmap & Hrest).
    pose proof (hex_digit_not_space c Hc) as Hsp.
    unfold is_hex_digit in Hc, Hd.
    destruct (hex_value c) as [hi|] eqn:Ehi; [|discriminate Hc].
    destruct (hex_value d) as [lo|] eqn:Elo; [|discriminate Hd].
    pose proof (hex_value_range c hi Ehi). pose proof (hex_value_range d lo Elo).
    exists (SHA256.byte_of_Z (16 * hi + lo) :: bs).
    split; [cbn; rewrite Hbs; reflexivity|]. split.
    + cbn [map hex_pairs]. rewrite Ehi, Elo, Hmap, byte_val_of_Z by lia.
      reflexivity.
    + intros rest. cbn [append bytes_fromhex]. rewrite Hsp, Ehi, Elo, Hrest.
      destruct (bytes_fromhex rest); reflexivity.
Qed.

(** [parse_mac] either rejects its argument at the pattern test, or
    finds 12 hexadecimal characters, possibly followed by one line feed,
    and returns the 6 bytes they spell. *)
Lemma parse_mac_cases (s : string) :
  (re_match mac_pattern (strip_separators s) = false /\
   parse_mac s =
     Raise (ValueError ("Invalid MAC address format: " ++ strip_separators s)))
  \/
  (exists (h : string) (bs : list byte),
     (strip_separators s = h \/ strip_separators s = h ++ newline) /\
     twelve_hex h = true /\
     parse_mac s = Ok bs /\ List.length bs = 6%nat /\
     map byte_val bs = hex_pairs h).
Proof.
  unfold parse_mac. fold (strip_separators s). set (t := strip_separators s).
  destruct (re_match mac_pattern t) eqn:Hre; [right | left; split; reflexivity].
  assert (exists h, (t = h ++ "" \/ t = h ++ newline) /\ twelve_hex h = true)
    as (h & Ht & Hh).
  { apply re_match_mac_pattern in Hre as [H | (h & -> & H)].
    - exists t. rewrite append_empty_r. split; [left; reflexivity | exact H].
    - exists h. split; [right; reflexivity | exact H]. }
  unfold twelve_hex in Hh. apply andb_prop in Hh as Hh'.
  destruct Hh' as [Hlen Hall]. apply Nat.eqb_eq in Hlen.
  destruct (bytes_fromhex_pairs 6 h Hlen Hall) as (bs & Hbs & Hmap & Hrest).
  exists h, bs. cbn [negb].
  assert (bytes_fromhex t = Ok bs) as ->.
  { destruct Ht as [-> | ->]; rewrite Hrest; cbn; rewrite app_nil_r; reflexivity. }
  rewrite Hbs. cbn [Nat.eqb negb].
  rewrite append_empty_r in Ht.
  repeat split; assumption.
Qed.

(** Whenever the stripped argument is exactly 12 hexadecimal characters,
    [parse_mac] returns the 6 bytes they spell. *)
Lemma parse_mac_twelve_hex (s : string) :
  twelve_hex (strip_separators s) = true ->
  exists bs : list byte,
    parse_mac s = Ok bs /\ List.length bs = 6%nat /\
    map byte_val bs = hex_pairs (strip_separators s).
Proof.
  intros H12.
  destruct (parse_mac_cases s) as [[Hre _] | (h & bs & Ht & Hh & Hok & Hlen & Hmap)].
  - assert (re_match mac_pattern (strip_separators s) = true) as Hre'
      by (apply re_match_mac_pattern; left; exact H12).
    congruence.
  - exists bs. split; [exact Hok|]. split; [exact Hlen|].
    destruct Ht as [-> | Ht]; [exact Hmap|].
    unfold twelve_hex in H12, Hh.
    apply andb_prop in H12 as [H12 _]. apply andb_prop in Hh as [Hh _].
    apply Nat.eqb_eq in H12, Hh.
    rewrite Ht, length_append, Hh in H12. discriminate H12.
Qed.

(** [parse_mac] succeeds exactly when the stripped argument is 12
    hexadecimal characters, or 12 of them and a final line feed. *)
Lemma parse_mac_ok_iff (s : string) :
  is_ok (parse_mac s) = true <->
  twelve_hex (strip_separators s) = true \/
  exists h : string, strip_separators s = h ++ newline /\ twelve_hex h = true.
Proof.
  rewrite <- re_match_mac_pattern.
  destruct (parse_mac_cases s) as [[Hre ->] | (h & bs & Ht & Hh & -> & _)].
  - rewrite Hre. cbn. split; discriminate.
  - cbn. split; [intros _ | reflexivity].
    apply re_match_mac_pattern.
    destruct Ht as [-> | ->]; [left; exact Hh | right; exists h; split; [reflexivity | exact Hh]].
Qed.

(** The two malformed addresses of the specification are rejected. *)
Example parse_mac_rejects_short_and_non_hex :
  parse_mac "12:34" = Raise (ValueError "Invalid MAC address format: 1234") /\
  parse_mac "ZZ:ZZ:ZZ:ZZ:ZZ:ZZ" =
    Raise (ValueError "Invalid MAC address format: ZZZZZZZZZZZZ").
Proof. split; reflexivity. Qed.

Example parse_mac_accepted_forms :
  parse_mac "AA:BB:CC:DD:EE:FF" = Ok [xaa; xbb; xcc; xdd; xee; xff] /\
  parse_mac "aa-bb-cc-dd-ee-ff" = Ok [xaa; xbb; xcc; xdd; xee; xff] /\
  parse_mac "AABBCCDDEEFF" = Ok [xaa; xbb; xcc; xdd; xee; xff].
Proof. repeat split. Qed.

(** C5 (does not hold of the code). An address followed by a line feed
    is accepted although, once the separators are deleted, 13 characters
    remain and the last is not hexadecimal: [$] also matches just
    before a final line feed, and [bytes.fromhex] skips it. *)
Theorem parse_mac_accepts_trailing_newline :
  strip_separators ("AA:BB:CC:DD:EE:FF" ++ newline) = "AABBCCDDEEFF" ++ newline /\
  String.length (strip_separators ("AA:BB:CC:DD:EE:FF" ++ newline)) = 13%nat /\
  twelve_hex (strip_separators ("AA:BB:CC:DD:EE:FF" ++ newline)) = false /\
  parse_mac ("AA:BB:CC:DD:EE:FF" ++ newline) = Ok [xaa; xbb; xcc; xdd; xee; xff].
Proof. split; [|split; [|split]]; vm_compute; reflexivity. Qed.

(** * Further properties of the state update *)

Lemma fan_and_heat_flame (s : VikingBioSimulator) (g : Random) :
  flame_on (fst (fan_and_heat s g)) = flame_on s /\
  target_temp (fst (fan_and_heat s g)) = target_temp s.
Proof.
  destruct (fan_and_heat_fst s g) as (r1 & r2 & r3 & r4 & _ & _ & _ & _ & ->).
  destruct (flame_on s) eqn:Hflame; cbv zeta;
    repeat match goal with |- context [if ?c then _ else _] => destruct c end;
    cbn; rewrite ?Hflame; split; reflexivity.
Qed.

Lemma update_state_target (s : VikingBioSimulator) (g : Random) :
  target_temp (fst (update_state s g)) = target_temp s.
Proof.
  rewrite update_state_run.
  destruct (fan_and_heat_flame (fst (flame_transition s g))
              (snd (flame_transition s g))) as [_ ->].
  rewrite flame_transition_fst.
  repeat match goal with |- context [if ?c then _ else _] => destruct c end;
    reflexivity.
Qed.

(** The target temperature set by [__init__] (or by hand) is never
    changed by any number of ticks. *)
Theorem target_temp_constant (n : nat) (s : VikingBioSimulator) (g : Random) :
  target_temp (fst (ticks n s g)) = target_temp s.
Proof.
  induction n as [|n IH]; [reflexivity|].
  rewrite ticks_succ, update_state_target. exact IH.
Qed.

(** The flame changes in a tick exactly when the single [random()] draw
    of that tick is below the threshold of the current flame state:
    0.10 to ignite, 0.05 to shut down. *)
Theorem flame_changes_iff_draw (s : VikingBioSimulator) (g : Random) :
  flame_on (fst (update_state s g)) = negb (flame_on s) <->
  (fst (random g) < (if flame_on s then 1 # 20 else 1 # 10))%Q.
Proof.
  rewrite update_state_run.
  destruct (fan_and_heat_flame (fst (flame_transition s g))
              (snd (flame_transition s g))) as [-> _].
  rewrite flame_transition_fst.
  destruct (flame_on s) eqn:Hflame.
  - rewrite <- float_lt_0_05.
    destruct (float_lt (fst (random g)) float_0_05); cbn; rewrite ?Hflame;
      split; intros H; (reflexivity || discriminate H).
  - rewrite <- float_lt_0_1.
    destruct (float_lt (fst (random g)) float_0_1); cbn; rewrite ?Hflame;
      split; intros H; (reflexivity || discriminate H).
Qed.

(** A tick through which the flame stays on. *)
Lemma burning_tick (s : VikingBioSimulator) (g : Random) :
  flame_on s = true ->
  flame_on (fst (update_state s g)) = true ->
  exists r1 r2 r3 : Z,
    5 <= r1 <= 15 /\ -5 <= r2 <= 5 /\ 1 <= r3 <= 3 /\
    fan_speed (fst (update_state s g)) =
      (if fan_speed s <? 80 then Z.min 80 (fan_speed s + r1)
       else Z.max 70 (Z.min 90 (fan_speed s + r2))) /\
    temperature (fst (update_state s g)) =
      (if temperature s <? target_temp s
       then Z.min (target_temp s) (temperature s + r3)
       else temperature s).
Proof.
  intros Hon. rewrite update_state_run, flame_transition_fst, Hon.
  set (g1 := snd (flame_transition s g)).
  destruct (float_lt (fst (random g)) float_0_05).
  - destruct (fan_and_heat_flame (extinguish s) g1) as [-> _]. discriminate.
  - intros _.
    destruct (fan_and_heat_fst s g1) as (r1 & r2 & r3 & r4 & H1 & H2 & H3 & _ & ->).
    exists r1, r2, r3. rewrite Hon. cbv zeta.
    repeat split; try lia;
      destruct (fan_speed s <? 80); cbn [temperature target_temp set_fan_speed];
      destruct (temperature s <? target_temp s); reflexivity.
Qed.

(** While the flame stays on, the temperature rises by 1 to 3 degrees a
    tick without passing the target, and stands still once it is at the
    target or above. *)
Theorem burning_tick_heats (s : VikingBioSimulator) (g : Random) :
  flame_on s = true ->
  flame_on (fst (update_state s g)) = true ->
  if temperature s <? target_temp s
  then temperature s < temperature (fst (update_state s g)) <= target_temp s /\
       temperature (fst (update_state s g)) <= temperature s + 3
  else temperature (fst (update_state s g)) = temperature s.
Proof.
  intros Hon Hon'.
  destruct (burning_tick s g Hon Hon') as (r1 & r2 & r3 & _ & _ & H3 & _ & ->).
  destruct (Z.ltb_spec (temperature s) (target_temp s)); [lia | reflexivity].
Qed.

Lemma burning_tick_heats_witness :
  let s := state_at burn_source 5 in
  let g := snd (ticks 5 init burn_source) in
  flame_on s = true /\ flame_on (fst (update_state s g)) = true /\
  if temperature s <? target_temp s
  then temperature s < temperature (fst (update_state s g)) <= target_temp s /\
       temperature (fst (update_state s g)) <= temperature s + 3
  else temperature (fst (update_state s g)) = temperature s.
Proof.
  intros s g. split; [reflexivity|]. split; [reflexivity|].
  apply (burning_tick_heats s g); reflexivity.
Defined.

(** While the flame stays on, a fan below 80 gains 5 to 15 a tick and
    is capped at 80; a fan at 80 or above is kept within 70..90, and
    moves by at most 5 if it was within 80..90. *)
Theorem burning_tick_fan (s : VikingBioSimulator) (g : Random) :
  flame_on s = true ->
  flame_on (fst (update_state s g)) = true ->
  if fan_speed s <? 80
  then Z.min 80 (fan_speed s + 5) <= fan_speed (fst (update_state s g))
         <= Z.min 80 (fan_speed s + 15)
  else 70 <= fan_speed (fst (update_state s g)) <= 90 /\
       (fan_speed s <= 90 ->
        Z.abs (fan_speed (fst (update_state s g)) - fan_speed s) <= 5).
Proof.
  intros Hon Hon'.
  destruct (burning_tick s g Hon Hon') as (r1 & r2 & r3 & H1 & H2 & _ & -> & _).
  destruct (Z.ltb_spec (fan_speed s) 80); lia.
Qed.

Lemma burning_tick_fan_witness :
  let s := state_at burn_source 8 in
  let g := snd (ticks 8 init burn_source) in
  flame_on s = true /\ flame_on (fst (update_state s g)) = true /\
  if fan_speed s <? 80
  then Z.min 80 (fan_speed s + 5) <= fan_speed (fst (update_state s g))
         <= Z.min 80 (fan_speed s + 15)
  else 70 <= fan_speed (fst (update_state s g)) <= 90 /\
       (fan_speed s <= 90 ->
        Z.abs (fan_speed (fst (update_state s g)) - fan_speed s) <= 5).
Proof.
  intros s g. split; [reflexivity|]. split; [reflexivity|].
  apply (burning_tick_fan s g); reflexivity.
Defined.

(** Whatever the fan speed was, a tick that ignites leaves it within
    35..45: the ignition branch resets it to 30 and the ramp of the same
    tick adds 5 to 15.  The temperature heats in that tick as well. *)
Theorem ignition_tick_any_state (s : VikingBioSimulator) (g : Random) :
  flame_on s = false ->
  (fst (random g) < 1 # 10)%Q ->
  flame_on (fst (update_state s g)) = true /\
  35 <= fan_speed (fst (update_state s g)) <= 45 /\
  if temperature s <? target_temp s
  then temperature s < temperature (fst (update_state s g))
         <= Z.min (target_temp s) (temperature s + 3)
  else temperature (fst (update_state s g)) = temperature s.
Proof.
  intros Hoff Hd. apply float_lt_0_1 in Hd.
  rewrite update_state_run, flame_transition_fst, Hoff, Hd.
  destruct (fan_and_heat_fst (ignite s) (snd (flame_transition s g)))
    as (r1 & r2 & r3 & r4 & H1 & _ & H3 & _ & ->).
  unfold ignite.
  cbn [flame_on fan_speed temperature target_temp]. cbv zeta.
  change (30 <? 80) with true. cbv iota.
  cbn [flame_on fan_speed temperature target_temp set_fan_speed].
  destruct (Z.ltb_spec (temperature s) (target_temp s)).
  all: cbn [flame_on fan_speed temperature target_temp
            set_temperature set_fan_speed].
  all: repeat split; lia.
Qed.

Lemma ignition_tick_any_state_witness :
  let s := state_at burn_source 13 in
  let g := zero_source in
  flame_on s = false /\ (fst (random g) < 1 # 10)%Q /\
  flame_on (fst (update_state s g)) = true /\
  35 <= fan_speed (fst (update_state s g)) <= 45 /\
  if temperature s <? target_temp s
  then temperature s < temperature (fst (update_state s g))
         <= Z.min (target_temp s) (temperature s + 3)
  else temperature (fst (update_state s g)) = temperature s.
Proof.
  intros s g. split; [reflexivity|]. split; [reflexivity|].
  apply (ignition_tick_any_state s g); reflexivity.
Defined.

(** In the states the loop can reach the fan speed is 0 with the flame
    off and within 35..90 with the flame on: speeds from 1 to 34 and
    above 90 do not occur. *)
Theorem reachable_fan_band (s : VikingBioSimulator) :
  reachable s ->
  if flame_on s then 35 <= fan_speed s <= 90 else fan_speed s = 0.
Proof.
  induction 1 as [|s g _ IH]; [reflexivity|].
  rewrite update_state_run.
  set (g1 := snd (flame_transition s g)).
  destruct (fan_and_heat_fst (fst (flame_transition s g)) g1)
    as (r1 & r2 & r3 & r4 & H1 & H2 & _ & _ & ->).
  rewrite flame_transition_fst.
  destruct (flame_on s) eqn:Hflame;
    match goal with |- context [float_lt ?d ?c] => destruct (float_lt d c) end;
    unfold ignite, extinguish;
    cbn [flame_on fan_speed temperature target_temp]; rewrite ?Hflame; cbv zeta;
    repeat match goal with
           | |- context [if ?a <? ?b then _ else _] => destruct (Z.ltb_spec a b)
           end;
    cbn [flame_on fan_speed temperature target_temp
         set_fan_speed set_temperature]; rewrite ?Hflame; lia.
Qed.

Lemma reachable_fan_band_witness :
  reachable (state_at burn_source 1) /\
  if flame_on (state_at burn_source 1)
  then 35 <= fan_speed (state_at burn_source 1) <= 90
  else fan_speed (state_at burn_source 1) = 0.
Proof.
  split; [apply state_at_reachable|].
  apply (reachable_fan_band (state_at burn_source 1)), state_at_reachable.
Defined.

(** ** Draws consumed *)

Lemma flame_transition_snd (s : VikingBioSimulator) (g : Random) :
  snd (flame_transition s g) = mkRandom (tape g) (S (cursor g)).
Proof.
  assert (snd (random g) = mkRandom (tape g) (S (cursor g))) as Hg by reflexivity.
  unfold flame_transition.
  destruct (flame_on s); cbn [negb]; unfold bind;
    destruct (random g) as [d g']; cbn [snd] in Hg; subst g';
    match goal with |- context [float_lt d ?c] => destruct (float_lt d c) end;
    reflexivity.
Qed.

Lemma fan_and_heat_snd (s : VikingBioSimulator) (g : Random) :
  snd (fan_and_heat s g) =
  mkRandom (tape g)
    (cursor g +
     (if flame_on s
      then 1 + (if temperature s <? target_temp s then 1 else 0)
      else if 20 <? temperature s then 1 else 0)).
Proof.
  unfold fan_and_heat.
  destruct (flame_on s).
  - destruct (fan_speed s <? 80);
      cbv beta iota delta [bind randint next_raw ret];
      cbn [temperature target_temp set_fan_speed];
      destruct (temperature s <? target_temp s); cbv beta iota;
      cbn [snd tape cursor]; f_equal; lia.
  - destruct (20 <? temperature s);
      cbv beta iota delta [bind randint next_raw ret];
      cbn [snd tape cursor]; [f_equal; lia | destruct g; cbn; f_equal; lia].
Qed.

(** A tick reads the random source in order and leaves the tape alone.
    It makes one [random()] call, then one [randint] call for the fan
    and one for heating if the flame is on and the temperature below
    target, or one for cooling if the flame is off and the temperature
    above 20: between one and three draws in all. *)
Theorem update_state_draws (s : VikingBioSimulator) (g : Random) :
  let s1 := fst (flame_transition s g) in
  let used :=
    (1 + (if flame_on s1
          then 1 + (if (temperature s1 <? target_temp s1)%Z then 1 else 0)
          else if (20 <? temperature s1)%Z then 1 else 0))%nat in
  snd (update_state s g) = mkRandom (tape g) (cursor g + used) /\
  (1 <= used <= 3)%nat.
Proof.
  cbv zeta. split.
  - rewrite update_state_run, fan_and_heat_snd, flame_transition_snd.
    cbn [tape cursor]. f_equal. lia.
  - destruct (flame_on (fst (flame_transition s g)));
      repeat match goal with |- context [if ?c then _ else _] => destruct c end;
      lia.
Qed.

(** ** Idling *)

Lemma idle_tick (s : VikingBioSimulator) (g : Random) :
  flame_on s = false -> temperature s <= 20 ->
  (1 # 10 <= fst (random g))%Q ->
  update_state s g = (s, mkRandom (tape g) (S (cursor g))).
Proof.
  intros Hoff Ht Hd.
  assert (float_lt (fst (random g)) float_0_1 = false) as Hf.
  { apply not_true_iff_false. intros H. apply float_lt_0_1 in H.
    apply (Qlt_not_le _ _ H), Hd. }
  rewrite update_state_run, flame_transition_snd, flame_transition_fst, Hoff, Hf.
  unfold fan_and_heat. rewrite Hoff.
  destruct (Z.ltb_spec 20 (temperature s)); [lia | reflexivity].
Qed.

(** With the flame off and the temperature at ambient (or below), the
    state does not move for as long as every [random()] draw is 0.10 or
    more; each such tick makes exactly one draw.  In particular a new
    simulator stays in its initial state until the first ignition. *)
Theorem idle_until_ignition (n : nat) (s : VikingBioSimulator) (g : Random) :
  flame_on s = false -> temperature s <= 20 ->
  (forall i : nat, (i < n)%nat ->
     (1 # 10 <= fst (random (mkRandom (tape g) (cursor g + i))))%Q) ->
  ticks n s g = (s, mkRandom (tape g) (cursor g + n)).
Proof.
  intros Hoff Ht. revert g. induction n as [|n IH]; intros g Hd.
  - cbn. unfold ret. destruct g; cbn. rewrite Nat.add_0_r. reflexivity.
  - change (ticks (S n) s g) with (bind (update_state s) (ticks n) g).
    unfold bind. rewrite idle_tick; try assumption.
    + rewrite IH.
      * cbn [tape cursor]. do 2 f_equal. lia.
      * intros i Hi. cbn [tape cursor].
        replace (S (cursor g) + i)%nat with (cursor g + S i)%nat by lia.
        apply Hd. lia.
    + specialize (Hd 0%nat ltac:(lia)). rewrite Nat.add_0_r in Hd.
      destruct g; exact Hd.
Qed.

Lemma idle_until_ignition_witness :
  flame_on init = false /\ temperature init <= 20 /\
  (forall i : nat, (i < 4)%nat ->
     (1 # 10 <= fst (random (mkRandom (tape idle_source)
                                      (cursor idle_source + i))))%Q) /\
  ticks 4 init idle_source =
    (init, mkRandom (tape idle_source) (cursor idle_source + 4)).
Proof.
  assert (forall i : nat, (i < 4)%nat ->
     (1 # 10 <= fst (random (mkRandom (tape idle_source)
                                      (cursor idle_source + i))))%Q) as Hd.
  { intros i _. vm_compute. discriminate. }
  split; [reflexivity|]. split; [cbn; lia|]. split; [exact Hd|].
  apply (idle_until_ignition 4 init idle_source); [reflexivity | cbn; lia | exact Hd].
Defined.

(** * Further properties of the encoders *)


Lemma byte_of_int_out_of_range (z : Z) :
  ~ 0 <= z <= 255 ->
  byte_of_int z = Raise (ValueError "bytes must be in range(0, 256)").
Proof.
  intros Hz. unfold byte_of_int.
  destruct (Z.leb_spec 0 z), (Z.ltb_spec z 256); cbn [andb];
    try reflexivity; lia.
Qed.

Lemma send_binary_packet_fan_error (s : VikingBioSimulator) :
  ~ 0 <= fan_speed s <= 255 ->
  send_binary_packet s = Raise (ValueError "bytes must be in range(0, 256)").
Proof.
  intros Hf. unfold send_binary_packet, binary_packet_ints. cbn [bytes_of_ints].
  change (byte_of_int 170) with (Ok xaa).
  rewrite (byte_of_int_out_of_range (fan_speed s) Hf).
  destruct (flame_on s); reflexivity.
Qed.


(** A receiver that checks the two sentinels and reads bit 0 of the
    flags, the fan byte and the big-endian temperature pair gets back
    the flame, the fan speed and the temperature of any state whose fan
    speed fits a byte and whose temperature fits 16 bits. *)
Theorem binary_frame_round_trip (s : VikingBioSimulator) :
  0 <= fan_speed s <= 255 ->
  0 <= temperature s <= 65535 ->
  exists frame : list byte,
    send_binary_packet s = Ok frame /\
    decode_binary_frame frame =
      Some (flame_on s, fan_speed s, temperature s).
Proof.
  intros Hf Ht.
  destruct (binary_frame_bytes s Hf Ht)
    as (flags & fan & hi & lo & Hpkt & Hflags & Hfan & Hhi & Hlo).
  exists [xaa; flags; fan; hi; lo; x55]. split; [exact Hpkt|].
  cbn [decode_binary_frame]. change (Byte.eqb xaa xaa && Byte.eqb x55 x55) with true.
  cbv iota. unfold u16_be. rewrite Hflags, Hfan, Hhi, Hlo.
  pose proof (Z.div_mod (temperature s) 256 ltac:(lia)) as Hdm.
  replace (temperature s / 256 * 256 + temperature s mod 256)
    with (temperature s) by lia.
  destruct (flame_on s); reflexivity.
Qed.

Lemma binary_frame_round_trip_witness :
  let s := {| flame_on := true; fan_speed := 255;
              temperature := 40000; target_temp := 75 |} in
  0 <= fan_speed s <= 255 /\ 0 <= temperature s <= 65535 /\
  exists frame : list byte,
    send_binary_packet s = Ok frame /\
    decode_binary_frame frame =
      Some (flame_on s, fan_speed s, temperature s).
Proof.
  intros s. split; [cbn; lia|]. split; [cbn; lia|].
  apply (binary_frame_round_trip s); cbn; lia.
Defined.

(** ** The text line determines the state it shows *)

Lemma occurs_append (c : ascii) (a b : string) :
  occurs c (a ++ b) = occurs c a || occurs c b.
Proof.
  induction a as [|x a IH]; cbn; [|rewrite IH, orb_assoc]; reflexivity.
Qed.

(** Two strings free of [c], each followed by [c] and a rest. *)
Lemma split_at_char (c : ascii) :
  forall x y r1 r2 : string,
    occurs c x = false -> occurs c y = false ->
    x ++ String c r1 = y ++ String c r2 -> x = y /\ r1 = r2.
Proof.
  induction x as [|a x IH]; intros [|b y] r1 r2 Hx Hy Heq; cbn in *.
  - injection Heq as ->. split; reflexivity.
  - injection Heq as <- _. rewrite Ascii.eqb_refl in Hy. discriminate Hy.
  - injection Heq as -> _. rewrite Ascii.eqb_refl in Hx. discriminate Hx.
  - injection Heq as -> Heq.
    apply orb_false_elim in Hx as [_ Hx]. apply orb_false_elim in Hy as [_ Hy].
    destruct (IH y r1 r2 Hx Hy Heq) as [-> ->]. split; reflexivity.
Qed.

Lemma all_digits_occurs (c : ascii) (s : string) :
  is_digit c = false -> all_digits s = true -> occurs c s = false.
Proof.
  intros Hc. induction s as [|x s IH]; cbn; [reflexivity|].
  intros H. apply andb_prop in H as [Hx Hs]. rewrite (IH Hs), orb_false_r.
  apply Ascii.eqb_neq. intros ->. congruence.
Qed.

(** A printed integer holds digits and at most a leading minus sign. *)
Lemma str_int_occurs (c : ascii) (z : Z) :
  is_digit c = false -> c <> "-"%char -> occurs c (str_int z) = false.
Proof.
  intros Hc Hm. pose proof (str_int_printed z) as H. unfold printed_int in H.
  destruct (z <? 0).
  - destruct H as (ds & -> & Hall & _). cbn [occurs].
    rewrite (all_digits_occurs c ds Hc Hall), orb_false_r.
    apply Ascii.eqb_neq. congruence.
  - destruct H as (Hall & _). apply all_digits_occurs; assumption.
Qed.

(** Printing an integer loses nothing. *)
Lemma str_int_inj (z1 z2 : Z) : str_int z1 = str_int z2 -> z1 = z2.
Proof.
  intros Heq.
  pose proof (str_int_printed z1) as H1. pose proof (str_int_printed z2) as H2.
  rewrite Heq in H1. unfold printed_int in H1, H2.
  destruct (Z.ltb_spec z1 0), (Z.ltb_spec z2 0).
  - destruct H1 as (d1 & E1 & _ & V1 & _), H2 as (d2 & E2 & _ & V2 & _).
    rewrite E1 in E2. injection E2 as ->. lia.
  - destruct H1 as (d1 & E1 & _), H2 as (Hall & _).
    rewrite E1 in Hall. discriminate Hall.
  - destruct H2 as (d2 & E2 & _), H1 as (Hall & _).
    rewrite E2 in Hall. discriminate Hall.
  - destruct H1 as (_ & V1 & _), H2 as (_ & V2 & _). lia.
Qed.

Lemma send_text_packet_bytes (s : VikingBioSimulator) :
  send_text_packet s =
  Ok (list_byte_of_string
        ("F:" ++ str_int (if flame_on s then 1 else 0)
              ++ ",S:" ++ str_int (fan_speed s)
              ++ ",T:" ++ str_int (temperature s) ++ newline)).
Proof.
  unfold send_text_packet. apply encode_ascii_ok.
  rewrite !all_ascii_append, !str_int_ascii. reflexivity.
Qed.

(** Two states with the same text line have the same flame, fan speed
    and temperature: the line can be read back without ambiguity,
    negative numbers included. *)
Theorem text_line_injective (s1 s2 : VikingBioSimulator) :
  send_text_packet s1 = send_text_packet s2 ->
  flame_on s1 = flame_on s2 /\ fan_speed s1 = fan_speed s2 /\
  temperature s1 = temperature s2.
Proof.
  rewrite !send_text_packet_bytes. intros Heq.
  apply (f_equal (fun r => match r with
                           | Ok l => string_of_list_byte l
                           | Raise _ => ""
                           end)) in Heq.
  cbv beta iota in Heq.
  rewrite !string_of_list_byte_of_string in Heq.
  assert (forall b : bool,
            str_int (if b then 1 else 0) =
            String (if b then "1" else "0")%char "") as Hflag
    by (intros [|]; reflexivity).
  rewrite !Hflag in Heq. cbn [append] in Heq. injection Heq as Hc Heq.
  destruct (split_at_char "," _ _ _ _
              (str_int_occurs "," (fan_speed s1) eq_refl ltac:(discriminate))
              (str_int_occurs "," (fan_speed s2) eq_refl ltac:(discriminate))
              Heq) as [Hfan Hrest].
  injection Hrest as Hrest. unfold newline in Hrest.
  destruct (split_at_char "010" _ _ _ _
              (str_int_occurs "010" (temperature s1) eq_refl ltac:(discriminate))
              (str_int_occurs "010" (temperature s2) eq_refl ltac:(discriminate))
              Hrest) as [Htemp _].
  split; [|split; apply str_int_inj; assumption].
  destruct (flame_on s1), (flame_on s2);
    (reflexivity || discriminate Hc).
Qed.

Lemma text_line_injective_witness :
  let s1 := {| flame_on := true; fan_speed := 42;
               temperature := 61; target_temp := 75 |} in
  let s2 := {| flame_on := true; fan_speed := 42;
               temperature := 61; target_temp := 90 |} in
  send_text_packet s1 = send_text_packet s2 /\
  flame_on s1 = flame_on s2 /\ fan_speed s1 = fan_speed s2 /\
  temperature s1 = temperature s2.
Proof.
  intros s1 s2. split; [reflexivity|].
  apply (text_line_injective s1 s2). reflexivity.
Defined.

(** * Properties of [run] *)


Section RunLoop.

Variable protocol : string.

(** A property of states that ticks keep and under which the encoder
    for [protocol] succeeds. *)
Variable good : VikingBioSimulator -> Prop.
Hypothesis good_tick :
  forall s g, good s -> good (fst (update_state s g)).
Hypothesis good_packet :
  forall s, good s -> exists packet, send_packet protocol s = Ok packet.


End RunLoop.





(** A state set by hand with the flame off and a fan speed that does
    not fit a byte makes [run] in binary mode fail on its first
    iteration, unless that tick ignites: [bytes] raises [ValueError],
    nothing is written, and the port is closed all the same. *)
Theorem run_binary_bad_fan (n : nat) (s : VikingBioSimulator) (g : Random)
        (p : Serial) :
  flame_on s = false ->
  ~ 0 <= fan_speed s <= 255 ->
  (1 # 10 <= fst (random g))%Q ->
  run "binary" (S n) (mkRunning s g p) =
    (mkRunning (fst (update_state s g)) (snd (update_state s g))
       (mkSerial (written p) false),
     Raise (ValueError "bytes must be in range(0, 256)")).
Proof.
  intros Hoff Hfan Hd.
  assert (fan_speed (fst (update_state s g)) = fan_speed s) as Hsame.
  { assert (float_lt (fst (random g)) float_0_1 = false) as Hf.
    { apply not_true_iff_false. intros H. apply float_lt_0_1 in H.
      apply (Qlt_not_le _ _ H), Hd. }
    rewrite update_state_run, flame_transition_fst, Hoff, Hf.
    destruct (fan_and_heat_fst s (snd (flame_transition s g)))
      as (r1 & r2 & r3 & r4 & _ & _ & _ & _ & ->).
    rewrite Hoff. destruct (20 <? temperature s); reflexivity. }
  unfold run. cbn [run_loop burner source ser].
  destruct (update_state s g) as [s' g'] eqn:Hup. cbn [fst snd] in *.
  change (send_packet "binary" s') with (send_binary_packet s').
  rewrite send_binary_packet_fan_error by (rewrite Hsame; exact Hfan).
  reflexivity.
Qed.

Lemma run_binary_bad_fan_witness :
  let s := {| flame_on := false; fan_speed := 300;
              temperature := 20; target_temp := 75 |} in
  flame_on s = false /\ ~ 0 <= fan_speed s <= 255 /\
  (1 # 10 <= fst (random idle_source))%Q /\
  run "binary" 5 (mkRunning s idle_source (mkSerial [] true)) =
    (mkRunning (fst (update_state s idle_source))
               (snd (update_state s idle_source))
       (mkSerial (written (mkSerial [] true)) false),
     Raise (ValueError "bytes must be in range(0, 256)")).
Proof.
  intros s.
  assert (~ 0 <= fan_speed s <= 255) as Hfan by (cbn; lia).
  assert (1 # 10 <= fst (random idle_source))%Q as Hd
    by (vm_compute; discriminate).
  split; [reflexivity|]. split; [exact Hfan|]. split; [exact Hd|].
  apply (run_binary_bad_fan 4 s idle_source (mkSerial [] true));
    [reflexivity | exact Hfan | exact Hd].
Defined.

(** * Further properties of [parse_mac] *)

(** What [parse_mac] returns and what it raises.  On success the result
    is the 6 bytes spelled by the 12 hexadecimal characters that are
    left once the separators (and a final line feed) are gone.  The only
    failure is the [ValueError] of the pattern test, whose message ends
    with the stripped argument; the later check of the length never
    fires. *)
Theorem parse_mac_outcome (s : string) :
  match parse_mac s with
  | Ok bs =>
      List.length bs = 6%nat /\
      exists h : string,
        (strip_separators s = h \/ strip_separators s = h ++ newline) /\
        twelve_hex h = true /\ map byte_val bs = hex_pairs h
  | Raise e =>
      e = ValueError ("Invalid MAC address format: " ++ strip_separators s) /\
      re_match mac_pattern (strip_separators s) = false
  end.
Proof.
  destruct (parse_mac_cases s)
    as [[Hre ->] | (h & bs & Ht & Hh & -> & Hlen & Hmap)].
  - split; [reflexivity | exact Hre].
  - split; [exact Hlen|]. exists h. repeat split; assumption.
Qed.

Lemma str_remove_append (c : ascii) (a b : string) :
  str_remove c (a ++ b) = str_remove c a ++ str_remove c b.
Proof.
  induction a as [|x a IH]; cbn [append str_remove]; [reflexivity|].
  destruct (x =? c)%char; cbn [append]; rewrite IH; reflexivity.
Qed.

Lemma strip_separators_append (a b : string) :
  strip_separators (a ++ b) = strip_separators a ++ strip_separators b.
Proof. unfold strip_separators. rewrite !str_remove_append. reflexivity. Qed.

Lemma parse_mac_stripped (s1 s2 : string) :
  strip_separators s1 = strip_separators s2 ->
  parse_mac s1 = parse_mac s2 .
Proof.
  intros H. unfold parse_mac. fold (strip_separators s1).
  fold (strip_separators s2). rewrite H. reflexivity.
Qed.

(** A colon, a dash or a space makes no difference to [parse_mac]
    wherever it stands, be it inside a pair of digits or repeated. *)
Theorem parse_mac_ignores_separators (a b : string) :
  parse_mac (a ++ String ":" b) = parse_mac (a ++ b) /\
  parse_mac (a ++ String "-" b) = parse_mac (a ++ b) /\
  parse_mac (a ++ String " " b) = parse_mac (a ++ b).
Proof.
  repeat split; apply parse_mac_stripped;
    rewrite !strip_separators_append;
    match goal with
    | |- context [String ?c b] =>
        change (String c b) with (String c "" ++ b)
    end;
    rewrite strip_separators_append; reflexivity.
Qed.

(** ** Upper and lower case *)

Lemma hex_upper_facts (c : ascii) :
  hex_value (hex_upper c) = hex_value c /\
  is_space (hex_upper c) = is_space c /\
  in_ranges hex_class (hex_upper c) = in_ranges hex_class c /\
  (hex_upper c =? ":")%char = (c =? ":")%char /\
  (hex_upper c =? "-")%char = (c =? "-")%char /\
  (hex_upper c =? " ")%char = (c =? " ")%char /\
  (hex_upper c =? "010")%char = (c =? "010")%char.
Proof.
  destruct c as [[] [] [] [] [] [] [] []]; vm_compute; repeat split.
Qed.

Lemma str_remove_upper (c : ascii) (s : string) :
  (forall x, (hex_upper x =? c)%char = (x =? c)%char) ->
  str_remove c (string_map hex_upper s) = string_map hex_upper (str_remove c s).
Proof.
  intros Hc. induction s as [|x s IH]; cbn [string_map str_remove]; [reflexivity|].
  rewrite Hc. destruct (x =? c)%char; cbn [string_map]; rewrite IH; reflexivity.
Qed.

Lemma strip_separators_upper (s : string) :
  strip_separators (string_map hex_upper s) =
  string_map hex_upper (strip_separators s).
Proof.
  unfold strip_separators.
  rewrite !str_remove_upper; [reflexivity | |  | ];
    intros x; apply (hex_upper_facts x).
Qed.

Lemma take_class_upper (n : nat) :
  forall s : string,
    take_class hex_class n (string_map hex_upper s) =
    option_map (string_map hex_upper) (take_class hex_class n s).
Proof.
  induction n as [|n IH]; intros s; cbn [take_class]; [reflexivity|].
  destruct s as [|c s]; cbn [string_map]; [reflexivity|].
  destruct (hex_upper_facts c) as (_ & _ & -> & _).
  destruct (in_ranges hex_class c); [apply IH | reflexivity].
Qed.

Lemma re_match_upper (t : string) :
  re_match mac_pattern (string_map hex_upper t) = re_match mac_pattern t.
Proof.
  unfold re_match, mac_pattern. cbn [re_match_items andb Nat.eqb].
  rewrite take_class_upper.
  destruct (take_class hex_class 12 t) as [rest|]; cbn [option_map]; [|reflexivity].
  destruct rest as [|c rest]; [reflexivity|].
  cbn [string_map]. unfold newline.
  cbn [String.eqb orb]. destruct (hex_upper_facts c) as (_ & _ & _ & _ & _ & _ & ->).
  destruct rest; reflexivity.
Qed.

Lemma bytes_fromhex_upper (n : nat) :
  forall s : string,
    (String.length s <= n)%nat ->
    bytes_fromhex (string_map hex_upper s) = bytes_fromhex s.
Proof.
  induction n as [|n IH]; intros s Hlen.
  - destruct s; [reflexivity | cbn in Hlen; lia].
  - destruct s as [|c s]; [reflexivity|].
    cbn [string_map bytes_fromhex].
    destruct (hex_upper_facts c) as (-> & -> & _).
    destruct (is_space c).
    + apply IH. cbn in Hlen. lia.
    + destruct (hex_value c); [|reflexivity].
      destruct s as [|d s]; [reflexivity|].
      cbn [string_map]. destruct (hex_upper_facts d) as (-> & _).
      rewrite (IH s) by (cbn in Hlen; lia). reflexivity.
Qed.

(** Lower-case digits a to f parse as their upper-case forms: an
    accepted address gives the same bytes after upper-casing, and a
    rejected one is rejected still. *)
Theorem parse_mac_case_insensitive (s : string) :
  parse_mac (string_map hex_upper s) =
  match parse_mac s with
  | Ok bs => Ok bs
  | Raise _ =>
      Raise (ValueError ("Invalid MAC address format: "
                           ++ string_map hex_upper (strip_separators s)))
  end.
Proof.
  destruct (parse_mac_cases s) as [[Hre ->] | (h & bs & _ & _ & Hok & _)].
  - unfold parse_mac. fold (strip_separators (string_map hex_upper s)).
    rewrite strip_separators_upper, re_match_upper, Hre. reflexivity.
  - rewrite Hok. unfold parse_mac in Hok |- *.
    fold (strip_separators (string_map hex_upper s)).
    fold (strip_separators s) in Hok.
    rewrite strip_separators_upper, re_match_upper.
    rewrite (bytes_fromhex_upper _ _ (Nat.le_refl _)).
    destruct (re_match mac_pattern (strip_separators s)); cbn [negb] in *;
      [exact Hok | discriminate Hok].
Qed.

(** * Properties of [main] of [tools/derive_pin.py] *)

Lemma hex_digit_upper_value (v : Z) :
  0 <= v <= 15 -> hex_value (hex_digit_upper v) = Some v.
Proof.
  intros Hv.
  assert (v = 0 \/ v = 1 \/ v = 2 \/ v = 3 \/ v = 4 \/ v = 5 \/ v = 6 \/ v = 7 \/
          v = 8 \/ v = 9 \/ v = 10 \/ v = 11 \/ v = 12 \/ v = 13 \/ v = 14 \/
          v = 15) as H by lia.
  repeat (destruct H as [-> | H]; [reflexivity|]). subst v. reflexivity.
Qed.

Lemma strip_separators_format_02X (b : byte) :
  strip_separators (format_02X b) = format_02X b.
Proof. destruct b; vm_compute; reflexivity. Qed.

(** The display with its colons deleted: the digit pairs in a row. *)
Lemma strip_separators_mac_display (bs : list byte) :
  strip_separators (mac_display bs) = fold_right append "" (map format_02X bs).
Proof.
  unfold mac_display. induction bs as [|b bs IH]; [reflexivity|].
  destruct bs as [|b' bs].
  - cbn [map String.concat fold_right].
    rewrite strip_separators_format_02X, append_empty_r. reflexivity.
  - change (String.concat ":" (map format_02X (b :: b' :: bs)))
      with (format_02X b ++ String ":" ""
              ++ String.concat ":" (map format_02X (b' :: bs))).
    rewrite !strip_separators_append, IH, strip_separators_format_02X.
    reflexivity.
Qed.

Lemma digit_pairs_spell (bs : list byte) :
  String.length (fold_right append "" (map format_02X bs))
    = (2 * List.length bs)%nat /\
  all_hex (fold_right append "" (map format_02X bs)) = true /\
  hex_pairs (fold_right append "" (map format_02X bs)) = map byte_val bs.
Proof.
  induction bs as [|b bs (IHlen & IHhex & IHpairs)]; [repeat split|].
  pose proof (byte_val_range b) as Hb.
  assert (0 <= byte_val b / 16 < 16) as Hhi
    by (split; [apply Z.div_pos | apply Z.div_lt_upper_bound]; lia).
  pose proof (Z.mod_pos_bound (byte_val b) 16 ltac:(lia)) as Hlo.
  pose proof (hex_digit_upper_value (byte_val b / 16) ltac:(lia)) as Ehi.
  pose proof (hex_digit_upper_value (byte_val b mod 16) ltac:(lia)) as Elo.
  cbn [map fold_right]. unfold format_02X at 1 3 5.
  cbn [append String.length all_hex hex_pairs List.length].
  unfold is_hex_digit. rewrite Ehi, Elo, IHlen, IHhex, IHpairs.
  repeat split; [lia|].
  f_equal. pose proof (Z.div_mod (byte_val b) 16 ltac:(lia)). lia.
Qed.

Lemma map_byte_val_inj (a b : list byte) :
  map byte_val a = map byte_val b -> a = b.
Proof.
  revert b. induction a as [|x a IH]; intros [|y b] H; try discriminate H.
  - reflexivity.
  - cbn in H. injection H as Hx H.
    rewrite (byte_val_inj _ _ Hx), (IH b H). reflexivity.
Qed.

Lemma mac_display_length (bs : list byte) :
  List.length bs = 6%nat -> String.length (mac_display bs) = 17%nat.
Proof.
  intros Hlen.
  destruct bs as [|b0 [|b1 [|b2 [|b3 [|b4 [|b5 [|b6 bs]]]]]]];
    try discriminate Hlen.
  reflexivity.
Qed.

(** The address as [main] displays it parses back to the same 6 bytes:
    17 characters, upper-case digit pairs with colons between. *)
Theorem mac_display_round_trip (bs : list byte) :
  List.length bs = 6%nat ->
  String.length (mac_display bs) = 17%nat /\
  parse_mac (mac_display bs) = Ok bs.
Proof.
  intros Hlen. split; [apply mac_display_length, Hlen|].
  destruct (digit_pairs_spell bs) as (Hl & Hhex & Hpairs).
  destruct (parse_mac_twelve_hex (mac_display bs)) as (bs' & Hok & _ & Hmap).
  - rewrite strip_separators_mac_display. unfold twelve_hex.
    rewrite Hl, Hlen, Hhex. reflexivity.
  - rewrite strip_separators_mac_display, Hpairs in Hmap.
    rewrite Hok, (map_byte_val_inj _ _ Hmap). reflexivity.
Qed.

Lemma mac_display_round_trip_witness :
  let bs := [x28; xcd; xc1; x00; x00; x01] in
  List.length bs = 6%nat /\
  String.length (mac_display bs) = 17%nat /\
  parse_mac (mac_display bs) = Ok bs.
Proof.
  intros bs. split; [reflexivity|].
  apply (mac_display_round_trip bs). reflexivity.
Defined.


(** [derive_pin_from_mac] does not look at the length of its argument:
    for a byte string of any length, the empty one included, it returns
    8 decimal digits whose value is the first four digest bytes, read
    big-endian, modulo 100000000. *)
Theorem derive_pin_any_length (mac : list byte) :
  String.length (derive_pin_from_mac mac) = 8%nat /\
  all_digits (derive_pin_from_mac mac) = true /\
  exists b0 b1 b2 b3 : byte,
    firstn 4 (SHA256.sha256 (mac ++ PRODUCT_SALT)%list) = [b0; b1; b2; b3] /\
    decimal_value (derive_pin_from_mac mac) = u32_be b0 b1 b2 b3 mod 100000000.
Proof.
  destruct (sha256_shape (mac ++ PRODUCT_SALT)%list)
    as (b0 & b1 & b2 & b3 & rest & Hsha & _).
  unfold derive_pin_from_mac. rewrite Hsha. cbn [firstn].
  rewrite int_from_bytes_big_four.
  destruct (format_08d_eight_digits (u32_be b0 b1 b2 b3 mod 100000000))
    as (Hl & Hd & Hv); [apply Z.mod_pos_bound; lia|].
  split; [exact Hl|]. split; [exact Hd|].
  exists b0, b1, b2, b3. split; [reflexivity | exact Hv].
Qed.


(** * Pace of heating, cooling and fan ramp over a run *)

(** A tick through which the flame stays off. *)
Lemma idle_tick_cooling (s : VikingBioSimulator) (g : Random) :
  flame_on s = false ->
  flame_on (fst (update_state s g)) = false ->
  exists r : Z,
    1 <= r <= 2 /\
    fan_speed (fst (update_state s g)) = fan_speed s /\
    temperature (fst (update_state s g)) =
      (if 20 <? temperature s then Z.max 20 (temperature s - r)
       else temperature s).
Proof.
  intros Hoff. rewrite update_state_run, flame_transition_fst, Hoff.
  set (g1 := snd (flame_transition s g)).
  destruct (float_lt (fst (random g)) float_0_1).
  - destruct (fan_and_heat_flame (ignite s) g1) as [-> _]. discriminate.
  - intros _.
    destruct (fan_and_heat_fst s g1) as (r1 & r2 & r3 & r4 & _ & _ & _ & H4 & ->).
    exists r4. rewrite Hoff.
    destruct (20 <? temperature s);
      (split; [exact H4 | split; reflexivity]).
Qed.

(** Over a stretch of [k] ticks of a run throughout which the flame is
    on, the temperature gains at least 1 and at most 3 degrees a tick
    until it stops at the target of 75. *)
Theorem burning_segment_heating (g : Random) (i k : nat) :
  (forall j : nat, (i <= j <= i + k)%nat -> flame_on (state_at g j) = true) ->
  Z.min 75 (temperature (state_at g i) + Z.of_nat k)
    <= temperature (state_at g (i + k))
    <= Z.min 75 (temperature (state_at g i) + 3 * Z.of_nat k).
Proof.
  intros Hon.
  destruct (reachable_inv _ (state_at_reachable g i)) as (_ & Hi & _).
  induction k as [|k IH].
  - rewrite Nat.add_0_r. lia.
  - rewrite Nat.add_succ_r.
    specialize (IH ltac:(intros j Hj; apply Hon; lia)).
    destruct (reachable_inv _ (state_at_reachable g (i + k)))
      as (_ & Ht & Htarget & _).
    assert (flame_on (state_at g (S (i + k))) = true) as Hnext
      by (apply Hon; lia).
    rewrite state_at_succ in Hnext |- *.
    destruct (burning_tick _ _ (Hon (i + k)%nat ltac:(lia)) Hnext)
      as (r1 & r2 & r3 & _ & _ & H3 & _ & ->).
    rewrite Htarget.
    destruct (Z.ltb_spec (temperature (state_at g (i + k))) 75); lia.
Qed.

Lemma burning_segment_heating_witness :
  (forall j : nat, (1 <= j <= 1 + 9)%nat ->
     flame_on (state_at burn_source j) = true) /\
  Z.min 75 (temperature (state_at burn_source 1) + Z.of_nat 9)
    <= temperature (state_at burn_source (1 + 9))
    <= Z.min 75 (temperature (state_at burn_source 1) + 3 * Z.of_nat 9).
Proof.
  assert (forall j : nat, (1 <= j <= 1 + 9)%nat ->
            flame_on (state_at burn_source j) = true) as Hon.
  { intros j Hj.
    assert (j = 1 \/ j = 2 \/ j = 3 \/ j = 4 \/ j = 5 \/ j = 6 \/ j = 7 \/
            j = 8 \/ j = 9 \/ j = 10)%nat as H by lia.
    repeat (destruct H as [-> | H]; [reflexivity|]). subst j. reflexivity. }
  split; [exact Hon | apply (burning_segment_heating burn_source 1 9 Hon)].
Defined.

(** Over a stretch of [k] ticks of a run throughout which the flame is
    on, the fan speed gains at least 5 a tick until it is at 70 or
    more, and then stays within 70..90. *)
Theorem burning_segment_fan (g : Random) (i k : nat) :
  (forall j : nat, (i <= j <= i + k)%nat -> flame_on (state_at g j) = true) ->
  Z.min 70 (fan_speed (state_at g i) + 5 * Z.of_nat k)
    <= fan_speed (state_at g (i + k)) <= 90.
Proof.
  intros Hon. split.
  - induction k as [|k IH].
    + rewrite Nat.add_0_r. lia.
    + rewrite Nat.add_succ_r.
      specialize (IH ltac:(intros j Hj; apply Hon; lia)).
      assert (flame_on (state_at g (S (i + k))) = true) as Hnext
        by (apply Hon; lia).
      rewrite state_at_succ in Hnext |- *.
      destruct (burning_tick _ _ (Hon (i + k)%nat ltac:(lia)) Hnext)
        as (r1 & r2 & r3 & H1 & H2 & _ & -> & _).
      destruct (Z.ltb_spec (fan_speed (state_at g (i + k))) 80); lia.
  - destruct (reachable_inv _ (state_at_reachable g (i + k))) as (Hf & _). lia.
Qed.

Lemma burning_segment_fan_witness :
  (forall j : nat, (1 <= j <= 1 + 9)%nat ->
     flame_on (state_at burn_source j) = true) /\
  Z.min 70 (fan_speed (state_at burn_source 1) + 5 * Z.of_nat 9)
    <= fan_speed (state_at burn_source (1 + 9)) <= 90.
Proof.
  assert (forall j : nat, (1 <= j <= 1 + 9)%nat ->
            flame_on (state_at burn_source j) = true) as Hon.
  { intros j Hj.
    assert (j = 1 \/ j = 2 \/ j = 3 \/ j = 4 \/ j = 5 \/ j = 6 \/ j = 7 \/
            j = 8 \/ j = 9 \/ j = 10)%nat as H by lia.
    repeat (destruct H as [-> | H]; [reflexivity|]). subst j. reflexivity. }
  split; [exact Hon | apply (burning_segment_fan burn_source 1 9 Hon)].
Defined.

(** Over a stretch of [k] ticks of a run throughout which the flame is
    off, the temperature loses at least 1 and at most 2 degrees a tick
    until it stops at 20. *)
Theorem flame_off_segment_pace (g : Random) (i k : nat) :
  (forall j : nat, (i <= j <= i + k)%nat -> flame_on (state_at g j) = false) ->
  Z.max 20 (temperature (state_at g i) - 2 * Z.of_nat k)
    <= temperature (state_at g (i + k))
    <= Z.max 20 (temperature (state_at g i) - Z.of_nat k).
Proof.
  intros Hoff.
  destruct (reachable_inv _ (state_at_reachable g i)) as (_ & Hi & _).
  induction k as [|k IH].
  - rewrite Nat.add_0_r. lia.
  - rewrite Nat.add_succ_r.
    specialize (IH ltac:(intros j Hj; apply Hoff; lia)).
    assert (flame_on (state_at g (S (i + k))) = false) as Hnext
      by (apply Hoff; lia).
    rewrite state_at_succ in Hnext |- *.
    destruct (idle_tick_cooling _ _ (Hoff (i + k)%nat ltac:(lia)) Hnext)
      as (r & Hr & _ & ->).
    destruct (Z.ltb_spec 20 (temperature (state_at g (i + k)))); lia.
Qed.

Lemma flame_off_segment_pace_witness :
  (forall j : nat, (11 <= j <= 11 + 4)%nat ->
     flame_on (state_at burn_source j) = false) /\
  Z.max 20 (temperature (state_at burn_source 11) - 2 * Z.of_nat 4)
    <= temperature (state_at burn_source (11 + 4))
    <= Z.max 20 (temperature (state_at burn_source 11) - Z.of_nat 4).
Proof.
  assert (forall j : nat, (11 <= j <= 11 + 4)%nat ->
            flame_on (state_at burn_source j) = false) as Hoff.
  { intros j Hj.
    assert (j = 11 \/ j = 12 \/ j = 13 \/ j = 14 \/ j = 15)%nat as H by lia.
    repeat (destruct H as [-> | H]; [reflexivity|]). subst j. reflexivity. }
  split; [exact Hoff | apply (flame_off_segment_pace burn_source 11 4 Hoff)].
Defined.
